(** * Smart Message Language (SML) decoder: model of [sml.py] and its properties

    The development embeds class [Sml] of [src/sml.py]:
    - the CRC16 engine ([crc_slow], [crc_init], [crc]);
    - the framing state machine ([parse_byte]);
    - the schema driven TLV decoder ([pop_data], [parse]).

    Python integers are unbounded, so they are modelled by [Z]; a [bytearray]
    is a [list byte]; a Python [dict] with string keys is a [gmap string _];
    exceptions are an explicit outcome. *)

From Stdlib Require Import ZArith List Bool Lia.
From Stdlib Require Import Strings.Byte Strings.Ascii Strings.String.
From stdpp Require Import gmap strings.
Import ListNotations.

Local Open Scope Z_scope.

#[local] Set Warnings "-register-all".

(** ** Bytes *)

Module Bytes.

(** The integer value of a byte, as Python yields it when iterating over or
    indexing a [bytearray]. *)
Definition to_Z (b : byte) : Z := Z.of_N (Byte.to_N b).

(** The byte of an integer in [0, 255] (any other integer is mapped to
    [x00]; the model only calls it on values in range). *)
Definition of_Z (z : Z) : byte :=
  match Byte.of_N (Z.to_N z) with
  | Some b => b
  | None => x00
  end.

Definition eqb (a b : byte) : bool := Byte.eqb a b.

(** Equality of two byte strings, Python's [==] on [bytes]. *)
Fixpoint bytes_eqb (l1 l2 : list byte) : bool :=
  match l1, l2 with
  | [], [] => true
  | a :: l1', b :: l2' => eqb a b && bytes_eqb l1' l2'
  | _, _ => false
  end.

End Bytes.

(** ** CRC16 engine *)

Module Crc.

Definition polynom : Z := 0x8408.

(** One round of the inner loop shared by [crc_slow] and [crc_init]:
    [if crcsum & 0x01: crcsum = (crcsum >> 1) ^ polynom
     else: crcsum >>= 1]. *)
Definition crc_bit (crcsum : Z) : Z :=
  if negb (Z.land crcsum 0x01 =? 0)
  then Z.lxor (Z.shiftr crcsum 1) polynom
  else Z.shiftr crcsum 1.

(** [for bit in range(8)]: eight rounds. *)
Definition crc_bits8 (crcsum : Z) : Z :=
  Nat.iter 8 crc_bit crcsum.

(** [crc_slow]: the bit by bit reference. *)
Definition crc_slow_byte (crcsum : Z) (b : byte) : Z :=
  crc_bits8 (Z.lxor crcsum (Bytes.to_Z b)).

Definition crc_slow (data : list byte) : Z :=
  Z.lxor (fold_left crc_slow_byte data 0xFFFF) 0xFFFF.

(** [crc_init]: the table has one entry per [byte in range(256)]. *)
Definition crc_init : list Z :=
  List.map (fun n => crc_bits8 (Z.of_nat n)) (seq 0 256).

(** [self.crc_table]: filled once by [__init__] through [crc_init] and never
    written again. *)
Definition crc_table : list Z := crc_init.

(** [self.crc_table[idx]]: a Python list index, negative indices count from
    the end, anything out of range raises [IndexError] ([None] here). *)
Definition table_get (idx : Z) : option Z :=
  if idx <? 0
  then (if - idx <=? Z.of_nat (length crc_table)
        then nth_error crc_table (Z.to_nat (Z.of_nat (length crc_table) + idx))
        else None)
  else nth_error crc_table (Z.to_nat idx).

(** One iteration of the loop of [crc]:
    [idx = byte ^ (crcsum & 0xFF)]
    [crcsum = self.crc_table[idx] ^ (crcsum >> 8)]. *)
Definition crc_byte (crcsum : Z) (b : byte) : option Z :=
  let idx := Z.lxor (Bytes.to_Z b) (Z.land crcsum 0xFF) in
  match table_get idx with
  | Some t => Some (Z.lxor t (Z.shiftr crcsum 8))
  | None => None
  end.

Fixpoint crc_loop (crcsum : Z) (data : list byte) : option Z :=
  match data with
  | [] => Some crcsum
  | b :: rest =>
      match crc_byte crcsum b with
      | Some c => crc_loop c rest
      | None => None
      end
  end.

(** [crc]: the table driven checksum; [None] stands for an [IndexError]
    raised by the table access. *)
Definition crc (data : list byte) : option Z :=
  match crc_loop 0xFFFF data with
  | Some c => Some (Z.lxor c 0xFFFF)
  | None => None
  end.

End Crc.

(** ** Python sequence and string operations used by the decoder *)

Module Py.

Section Sequences.
Context {A : Type}.

(** A slice bound [i] on a sequence of length [n]: negative bounds count
    from the end, and every bound is clamped to [0, n]. *)
Definition bound (n : nat) (i : Z) : nat :=
  if i <? 0 then Z.to_nat (Z.of_nat n + i) else Nat.min (Z.to_nat i) n.

(** [l[:hi]] *)
Definition slice_to (hi : Z) (l : list A) : list A :=
  firstn (bound (length l) hi) l.

(** [l[lo:]] *)
Definition slice_from (lo : Z) (l : list A) : list A :=
  skipn (bound (length l) lo) l.

(** [l[lo:hi]] *)
Definition slice (lo hi : Z) (l : list A) : list A :=
  firstn (bound (length l) hi - bound (length l) lo)
         (skipn (bound (length l) lo) l).

(** [l[i]]: [None] stands for [IndexError]. *)
Definition getitem (l : list A) (i : Z) : option A :=
  if i <? 0
  then (if - i <=? Z.of_nat (length l)
        then nth_error l (Z.to_nat (Z.of_nat (length l) + i))
        else None)
  else nth_error l (Z.to_nat i).

End Sequences.

(** [int.from_bytes(b, byteorder='big', signed=False)] *)
Definition from_bytes_unsigned (b : list byte) : Z :=
  fold_left (fun acc x => acc * 256 + Bytes.to_Z x) b 0.

(** [int.from_bytes(b, byteorder='big', signed=True)] *)
Definition from_bytes_signed (b : list byte) : Z :=
  let u := from_bytes_unsigned b in
  let n := Z.of_nat (length b) in
  if n =? 0 then 0
  else if u <? 2 ^ (8 * n - 1) then u else u - 2 ^ (8 * n).

(** [bool.from_bytes(b, byteorder='big')]: [bool] of the unsigned value. *)
Definition bool_from_bytes (b : list byte) : bool :=
  negb (from_bytes_unsigned b =? 0).

(** [s.find(c)] for a one character pattern: first index, or [-1]. *)
Fixpoint find_from (c : ascii) (i : Z) (l : list ascii) : Z :=
  match l with
  | [] => -1
  | a :: l' => if Ascii.eqb a c then i else find_from c (i + 1) l'
  end.

Definition find (c : ascii) (s : string) : Z :=
  find_from c 0 (list_ascii_of_string s).

(** [s[lo:hi]] and [s[:hi]] on strings. *)
Definition str_slice (lo hi : Z) (s : string) : string :=
  string_of_list_ascii (slice lo hi (list_ascii_of_string s)).

Definition str_slice_to (hi : Z) (s : string) : string :=
  string_of_list_ascii (slice_to hi (list_ascii_of_string s)).

End Py.

(** ** Decoded values, exceptions and outcomes *)

(** What [parse] builds: [None], [bytes], [bool], [int], [list] and [dict]
    objects.  Python does not tell signed from unsigned integers apart, both
    are [int]. *)
Inductive value : Type :=
| VNone
| VBytes (b : list byte)
| VBool (b : bool)
| VInt (z : Z)
| VList (l : list value)
| VDict (d : gmap string value).

(** The exceptions that the code modelled here raises by itself.
    [RecursionError], which CPython raises once the calls of [parse] nest
    deeper than its recursion limit, is outside the model: the depth of the
    nested calls is not bounded here (see [Tlv.parse_loop]). *)
Inductive exn : Type :=
| SmlException
| KeyError
| IndexError
| UnboundLocalError.

(** The outcome of a call that works on mutable state [S]: a normal return,
    or an exception together with the state the object is left in.
    [OutOfFuel] belongs to the recursion scheme of [parse_loop] only. *)
Inductive outcome (S A : Type) : Type :=
| Ok (a : A)
| Raise (e : exn) (s : S)
| OutOfFuel.

Arguments Ok {S A} a.
Arguments Raise {S A} e s.
Arguments OutOfFuel {S A}.

Definition bind {S A B : Type} (m : outcome S A) (k : A -> outcome S B)
  : outcome S B :=
  match m with
  | Ok a => k a
  | Raise e s => Raise e s
  | OutOfFuel => OutOfFuel
  end.

Notation "'letr' p := m 'in' k" := (bind m (fun p => k))
  (at level 10, p pattern, m at level 100, k at level 200).

(** ** Structure schema *)

Module Schema.

(** An entry of [sml_struct]: [{'type': 'list', 'name': n}],
    [{'type': 'struct', 'name': [n1, ...]}]; [NOther] stands for an entry
    with any other ['type'], the case in which [parse] raises
    [SmlException] (the table below has none). *)
Inductive node : Type :=
| NList (name : string)
| NStruct (names : list string)
| NOther.

Definition key_names : gmap string (gmap Z string) :=
  list_to_map
    [ ("messageId"%string,
        list_to_map [ (257, "OpenResponse"%string);
                      (513, "CloseResponse"%string);
                      (1793, "GetListResponse"%string) ]);
      ("timeId"%string,
        list_to_map [ (1, "secIndex"%string);
                      (2, "timestamp"%string);
                      (3, "localTimestamp"%string) ]) ].

Definition sml_struct : gmap string node :=
  list_to_map
    [ ("smlFile", NList "smlMessage");
      ("smlMessage", NStruct ["transactionId"; "groupNo"; "abortOnError";
                              "messageBody"; "crc16"; "endOfSmlMsg"]);
      ("messageBody", NStruct ["messageId"; "[messageId]"]);
      ("message", NList "message");
      ("OpenResponse", NStruct ["codepage"; "clientId"; "reqFileId";
                                "serverId"; "refTime"; "smlVersion"]);
      ("refTime", NStruct ["timeId"; "[timeId]"]);
      ("CloseResponse", NStruct ["globalSignature"]);
      ("GetListResponse", NStruct ["clientId"; "serverId"; "listName";
                                   "actSensorTime"; "valList";
                                   "listSignature"; "actGatewayTime"]);
      ("actSensorTime", NStruct ["timeId"; "[timeId]"]);
      ("actGatewayTime", NStruct ["timeId"; "[timeId]"]);
      ("valList", NList "val");
      ("val", NStruct ["objName"; "status"; "valTime"; "unit"; "scaler";
                       "value"; "valueSignature"]);
      ("valTime", NStruct ["timeId"; "[timeId]"]);
      ("secIndex", NStruct ["secIndex"]);
      ("timestamp", NStruct ["timestamp"]);
      ("localTimestamp", NStruct ["timestamp"; "localOffset";
                                  "seasonTimeOffset"]) ]%string.

End Schema.

(** ** TLV decoder *)

Module Tlv.
Import Schema.

(** The local variable [etyp] of [parse]. *)
Inductive etype : Type := EList | EStruct.

(** [pop_data]: return and remove the first [len] bytes of [self.data];
    the pair is (returned bytes, new [self.data]). *)
Definition pop_data (len : Z) (data : list byte) : list byte * list byte :=
  (Py.slice_to len data, Py.slice_from len data).

(** The integer a decoded value stands for when it is used as a key of a
    table with integer keys: [True] and [False] hash and compare as [1] and
    [0]; [None] and [bytes] match no integer key ([KeyError]); a [list] or a
    [dict] is unhashable ([TypeError]). *)
Definition int_key (v : value) : option Z :=
  match v with
  | VInt z => Some z
  | VBool b => Some (if b then 1 else 0)
  | _ => None
  end.

(** [self.key_names[key][sml_dict[key]]]; [None] when any of the three
    accesses raises (all are caught by the bare [except:]). *)
Definition key_lookup (key : string) (sml_dict : gmap string value)
  : option string :=
  match key_names !! key with
  | None => None
  | Some table =>
      match sml_dict !! key with
      | None => None
      | Some v =>
          match int_key v with
          | None => None
          | Some z => table !! z
          end
      end
  end.

(** The first part of the loop body of [parse]: the element type and the
    name [elem] of the element at this position. *)
Definition resolve (struct : string) (elements : Z)
           (sml_dict : gmap string value) (data : list byte)
  : outcome (list byte) (etype * string) :=
  match sml_struct !! struct with
  | None => Raise KeyError data
  | Some (NList name) => Ok (EList, name)
  | Some (NStruct names) =>
      let l := Z.of_nat (length names) in
      match Py.getitem names (l - elements) with
      | None => Raise IndexError data
      | Some elem =>
          let ob := Py.find "[" elem in
          let cb := Py.find "]" elem in
          if negb (ob =? -1) then
            let key := Py.str_slice (ob + 1) cb elem in
            match key_lookup key sml_dict with
            | None => Ok (EStruct, Py.str_slice_to (-2) key)
            | Some key_str =>
                let elem_new := (Py.str_slice_to ob elem ++ key_str)%string in
                if bool_decide (is_Some (sml_struct !! elem_new))
                then Ok (EStruct, elem_new)
                else Ok (EStruct, Py.str_slice_to (-2) key)
            end
          else Ok (EStruct, elem)
      end
  | Some NOther => Raise SmlException data
  end.

(** The [while tl & 0x80] loop: every further byte of the type-length
    field is popped from the buffer; [pop_data(1)[0]] raises [IndexError]
    on an empty buffer. *)
Fixpoint read_tl_more (data : list byte) (tl tl_len tl_bytes : Z)
  : outcome (list byte) (Z * Z * Z * list byte) :=
  if negb (Z.land tl 0x80 =? 0) then
    match data with
    | [] => Raise IndexError []
    | b :: rest =>
        let tl := Bytes.to_Z b in
        let tl_bytes := tl_bytes + 1 in
        let tl_len :=
          if Z.land tl 0x70 =? 0
          then Z.shiftl tl_len 4 + Z.land tl 0x0F
          else tl_len in
        read_tl_more rest tl tl_len tl_bytes
    end
  else Ok (tl, tl_len, tl_bytes, data).

(** Reading the type-length field: the result is
    [(tl, tl_typ, tl_len, tl_bytes)] and the buffer that is left. *)
Definition read_tl (data : list byte)
  : outcome (list byte) (Z * Z * Z * Z * list byte) :=
  match data with
  | [] => Raise IndexError []
  | b :: rest =>
      let tl := Bytes.to_Z b in
      let tl_typ := Z.land tl 0x70 in
      let tl_len := Z.land tl 0x0F in
      letr (tl, tl_len, tl_bytes, data) := read_tl_more rest tl tl_len 1 in
      Ok (tl, tl_typ, tl_len, tl_bytes, data)
  end.

(** The variables of one activation of [parse] that the loop updates. *)
Record frame : Type := Frame {
  elements : Z;
  data : list byte;
  sml_list : list value;
  sml_dict : gmap string value;
  etyp : option etype
}.

(** [if etyp == 'list': sml_list.append(val)]
    [elif etyp == 'struct': sml_dict[elem] = val], then [elements -= 1]. *)
Definition store (f : frame) (et : etype) (elem : string) (val : value)
           (data : list byte) : frame :=
  match et with
  | EList =>
      Frame (elements f - 1) data (sml_list f ++ [val]) (sml_dict f) (Some et)
  | EStruct =>
      Frame (elements f - 1) data (sml_list f) (<[elem := val]> (sml_dict f))
            (Some et)
  end.

(** One iteration of the [while] loop of [parse]; [rec] is the recursive
    call [self.parse(elem, tl_len)]. *)
Definition parse_item
           (rec : string -> Z -> list byte ->
                  outcome (list byte) (value * list byte))
           (struct : string) (f : frame)
  : outcome (list byte) frame :=
  letr (et, elem) := resolve struct (elements f) (sml_dict f) (data f) in
  letr (tl, tl_typ, tl_len, tl_bytes, data1) := read_tl (data f) in
  let data_len := tl_len - tl_bytes in
  if tl_typ =? 0x00 then
    if data_len =? 0 then Ok (store f et elem VNone data1)
    else if tl =? 0 then Ok (store f et elem (VBytes [x00]) data1)
    else
      let '(b, data2) := pop_data data_len data1 in
      Ok (store f et elem (VBytes b) data2)
  else if tl_typ =? 0x40 then
    let '(b, data2) := pop_data data_len data1 in
    Ok (store f et elem (VBool (Py.bool_from_bytes b)) data2)
  else if tl_typ =? 0x50 then
    let '(b, data2) := pop_data data_len data1 in
    Ok (store f et elem (VInt (Py.from_bytes_signed b)) data2)
  else if tl_typ =? 0x60 then
    let '(b, data2) := pop_data data_len data1 in
    Ok (store f et elem (VInt (Py.from_bytes_unsigned b)) data2)
  else if tl_typ =? 0x70 then
    letr (val, data2) := rec elem tl_len data1 in
    Ok (store f et elem val data2)
  else
    Ok (Frame (elements f) (Py.slice_from data_len data1)
              (sml_list f) (sml_dict f) (Some et)).

(** The end of [parse]: [etyp] is bound only if the loop body ran. *)
Definition parse_return (f : frame) : outcome (list byte) (value * list byte) :=
  match etyp f with
  | Some EList => Ok (VList (sml_list f), data f)
  | Some EStruct => Ok (VDict (sml_dict f), data f)
  | None => Raise UnboundLocalError (data f)
  end.

(** [while len(self.data) and elements != 0] *)
Definition parse_continue (f : frame) : bool :=
  negb (Nat.eqb (length (data f)) 0) && negb (elements f =? 0).

(** The loop of [parse], with its recursive calls.  Every iteration and
    every recursive call uses one unit of [fuel].  The depth of the nested
    calls is not bounded: where CPython would stop a deeply nested list with
    [RecursionError], the model goes on decoding. *)
Fixpoint parse_loop (fuel : nat) (struct : string) (f : frame)
  : outcome (list byte) (value * list byte) :=
  match fuel with
  | O => OutOfFuel
  | S fuel' =>
      if parse_continue f then
        letr f' := parse_item
                  (fun elem tl_len data1 =>
                     parse_loop fuel' elem (Frame tl_len data1 [] ∅ None))
                  struct f in
        parse_loop fuel' struct f'
      else parse_return f
  end.

(** [parse(struct, elements)] on the buffer [data]: the decoded value and
    the buffer that is left.  Each iteration pops at least one byte, so
    one unit of fuel per buffered byte (and one to return) is enough. *)
Definition parse (struct : string) (elements : Z) (data : list byte)
  : outcome (list byte) (value * list byte) :=
  parse_loop (S (length data)) struct (Frame elements data [] ∅ None).

End Tlv.

(** ** Frame assembler *)

Module Frame.

(** The instance variables of [Sml] that [parse_byte] reads and writes. *)
Record Sml : Type := MkSml {
  sml_file : value;
  data : list byte;
  esc_sequence : bool;
  esc_count : Z;
  message_started : bool
}.

(** [__init__] *)
Definition init : Sml := MkSml (VList []) [] false 0 false.

(** [int(esc[:-3:-1].hex(), 16)]: the last two bytes of [esc], the last
    one first, read as a hexadecimal number. *)
Definition crc_msg (esc : list byte) : Z :=
  Py.from_bytes_unsigned (firstn 2 (rev esc)).

(** [try: self.sml_file = self.parse()]
    [except SmlException as e: print(e)]
    [return True], on the buffer [data] without start, padding and end. *)
Definition decode (self : Sml) (data : list byte) (esc_count : Z)
  : outcome Sml (bool * Sml) :=
  match Tlv.parse "smlFile" (-1) data with
  | Ok (v, data) => Ok (true, MkSml v data false esc_count false)
  | Raise SmlException data =>
      Ok (true, MkSml (sml_file self) data false esc_count false)
  | Raise e data =>
      Raise e (MkSml (sml_file self) data false esc_count false)
  | OutOfFuel => OutOfFuel
  end.

(** The branch [elif esc[0:1] == b'\x1a'] of [parse_byte]; [data] is the
    buffer with the new byte, [esc_count] the counter after the
    decrement. *)
Definition end_of_message (self : Sml) (data esc : list byte) (esc_count : Z)
  : outcome Sml (bool * Sml) :=
  if message_started self then
    match Py.getitem esc 1 with
    | None => Raise IndexError (MkSml (sml_file self) data false
                                      esc_count false)
    | Some pad =>
        let padding_bytes := Bytes.to_Z pad in
        let crc_msg := crc_msg esc in
        match Crc.crc (Py.slice_to (-2) data) with
        | None => Raise IndexError (MkSml (sml_file self) data false
                                          esc_count false)
        | Some crc =>
            if crc =? crc_msg then
              let data := Py.slice_from 8 data in
              let data := Py.slice_to (- (8 + padding_bytes)) data in
              decode self data esc_count
            else
              Ok (false, MkSml (sml_file self) [] false esc_count false)
        end
    end
  else
    Ok (false, MkSml (sml_file self) data false esc_count false).

(** The dispatch of [parse_byte] on the four bytes after an escape
    sequence, [esc = self.data[-4:]]. *)
Definition escape_code (self : Sml) (data : list byte) (esc_count : Z)
  : outcome Sml (bool * Sml) :=
  let esc := Py.slice_from (-4) data in
  if Bytes.bytes_eqb esc [x1b; x1b; x1b; x1b] then
    Ok (false, MkSml (sml_file self) data false esc_count
                     (message_started self))
  else if Bytes.bytes_eqb esc [x01; x01; x01; x01] then
    Ok (false, MkSml (sml_file self) (Py.slice_from (-8) data) false
                     esc_count true)
  else if Bytes.bytes_eqb (Py.slice 0 1 esc) [x02] then
    Ok (false, MkSml (sml_file self) data false esc_count
                     (message_started self))
  else if Bytes.bytes_eqb (Py.slice 0 1 esc) [x03] then
    Ok (false, MkSml (sml_file self) data false esc_count
                     (message_started self))
  else if Bytes.bytes_eqb (Py.slice 0 1 esc) [x04] then
    Ok (false, MkSml (sml_file self) data false esc_count
                     (message_started self))
  else if Bytes.bytes_eqb (Py.slice 0 1 esc) [x1a] then
    end_of_message self data esc esc_count
  else
    Ok (false, MkSml (sml_file self) data false esc_count
                     (message_started self)).

(** [parse_byte(byte)]: the returned boolean and the new instance state. *)
Definition parse_byte (self : Sml) (byte : byte) : outcome Sml (bool * Sml) :=
  let data := data self ++ [byte] in
  if negb (esc_sequence self) then
    if Bytes.eqb byte x1b then
      let esc_count := esc_count self + 1 in
      if esc_count =? 4
      then Ok (false, MkSml (sml_file self) data true esc_count
                            (message_started self))
      else Ok (false, MkSml (sml_file self) data false esc_count
                            (message_started self))
    else Ok (false, MkSml (sml_file self) data false 0 (message_started self))
  else
    let esc_count := esc_count self - 1 in
    if esc_count =? 0 then escape_code self data esc_count
    else Ok (false, MkSml (sml_file self) data true esc_count
                          (message_started self)).

(** The caller's loop: bytes are fed one at a time, in order; the answers
    of all calls are collected, and an exception ends the run. *)
Fixpoint feed (self : Sml) (bytes : list byte)
  : outcome Sml (list bool * Sml) :=
  match bytes with
  | [] => Ok ([], self)
  | b :: rest =>
      letr (r, self') := parse_byte self b in
      letr (rs, self'') := feed self' rest in
      Ok (r :: rs, self'')
  end.

End Frame.

(** ** Wire format

    The shape of a frame on the wire, used to state the properties of the
    frame assembler: four escape bytes and the start code, the payload with
    its padding, four escape bytes and the end code [1a pp c1 c2]. *)

Module Wire.

Definition escape : list byte := [x1b; x1b; x1b; x1b].

Definition start_marker : list byte := escape ++ [x01; x01; x01; x01].

Definition end_marker (pp c1 c2 : byte) : list byte :=
  escape ++ [x1a; pp; c1; c2].

Definition frame (body : list byte) (pp c1 c2 : byte) : list byte :=
  start_marker ++ body ++ end_marker pp c1 c2.

(** The bytes of a frame that its checksum covers: all but the last two. *)
Definition checked (body : list byte) (pp : byte) : list byte :=
  start_marker ++ body ++ escape ++ [x1a; pp].

(** [escape_free run body]: after [run] escape bytes, the bytes of [body]
    never complete a run of four escape bytes, and [body] does not end in
    an escape byte. *)
Fixpoint escape_free (run : nat) (body : list byte) : bool :=
  match body with
  | [] => Nat.eqb run 0
  | b :: rest =>
      if Bytes.eqb b x1b
      then Nat.ltb (S run) 4 && escape_free (S run) rest
      else escape_free 0 rest
  end.


End Wire.

(** ** Reachable states of an instance *)

Module Run.

(** The states an [Sml] instance goes through when [parse_byte] is called
    on it any number of times, also after a call that raised. *)
Inductive reachable : Frame.Sml -> Prop :=
| reach_init : reachable Frame.init
| reach_return s b r s' :
    reachable s -> Frame.parse_byte s b = Ok (r, s') -> reachable s'
| reach_raise s b e s' :
    reachable s -> Frame.parse_byte s b = Raise e s' -> reachable s'.

(** The counters of an instance: outside an escape code at most three escape
    bytes are counted, and they are in the buffer; inside one, between one
    and four bytes are awaited and the buffer holds the escape bytes and the
    bytes of the code read so far. *)
Definition counters_ok (s : Frame.Sml) : Prop :=
  (Frame.esc_sequence s = false ->
   0 <= Frame.esc_count s <= 3
   /\ Frame.esc_count s <= Z.of_nat (length (Frame.data s)))
  /\ (Frame.esc_sequence s = true ->
      1 <= Frame.esc_count s <= 4
      /\ 8 - Frame.esc_count s <= Z.of_nat (length (Frame.data s))).

End Run.

(** ** Frames with their checksum

    What a sender does: the two bytes after [1a pp] are the checksum of all
    bytes before them, low byte first. *)

Module Sealed.

Definition crc_bytes (c : Z) : byte * byte :=
  (Bytes.of_Z (Z.land c 0xFF), Bytes.of_Z (Z.shiftr c 8)).

Definition frame (body : list byte) (pp : byte) : list byte :=
  let c := Crc.crc_slow (Wire.checked body pp) in
  Wire.frame body pp (fst (crc_bytes c)) (snd (crc_bytes c)).

End Sealed.

(** ** The caller's helper [pow10]
    ([smartmeter-mqtt.py], [smartmeter_orig.py]) *)

Module Caller.

(** [pow10(a, e)] on an [int] [a] and an [int] [e]: for [e >= 0] the loop
    [for i in range(e): a *= 10].  For [e < 0] the code divides with [/=],
    which gives a [float]; that branch is outside the model ([None]). *)
Definition pow10 (a e : Z) : option Z :=
  if e <? 0 then None
  else Some (Nat.iter (Z.to_nat e) (fun a => a * 10) a).

End Caller.

(** * Properties *)

(** ** Bytes and bit operations *)

Lemma to_Z_range (b : byte) : 0 <= Bytes.to_Z b < 256.
Proof.
  unfold Bytes.to_Z. pose proof (Byte.to_N_bounded b). lia.
Qed.

Lemma land_one_testbit (x : Z) : (Z.land x 1 =? 0) = negb (Z.testbit x 0).
Proof.
  change 1 with (Z.ones 1). rewrite Z.land_ones by lia.
  change (2 ^ 1) with 2. rewrite <- Z.bit0_mod.
  now destruct (Z.testbit x 0).
Qed.

Lemma low8_range (x : Z) : 0 <= Z.land x 0xFF < 256.
Proof.
  change 0xFF with (Z.ones 8). rewrite Z.land_ones by lia.
  apply Z.mod_pos_bound. reflexivity.
Qed.

Lemma lxor_range8 (a b : Z) :
  0 <= a < 256 -> 0 <= b < 256 -> 0 <= Z.lxor a b < 256.
Proof.
  intros Ha Hb.
  assert (E : Z.lxor a b = Z.land (Z.lxor a b) 0xFF).
  { apply Z.bits_inj'. intros n Hn.
    rewrite Z.land_spec, !Z.lxor_spec.
    destruct (Z.ltb_spec n 8) as [Hlt | Hge].
    - change 0xFF with (Z.ones 8). rewrite Z.ones_spec_low by lia.
      now rewrite andb_true_r.
    - rewrite <- (Z.mod_small a (2 ^ 8)), <- (Z.mod_small b (2 ^ 8))
        by (simpl; lia).
      rewrite !Z.mod_pow2_bits_high by lia. reflexivity. }
  rewrite E. apply low8_range.
Qed.

(** Every integer is its low byte combined with the rest shifted back. *)
Lemma split_low8 (x : Z) :
  x = Z.lxor (Z.land x 0xFF) (Z.shiftl (Z.shiftr x 8) 8).
Proof.
  apply Z.bits_inj'. intros n Hn.
  rewrite Z.lxor_spec, Z.land_spec. change 0xFF with (Z.ones 8).
  destruct (Z.ltb_spec n 8) as [Hlt | Hge].
  - rewrite Z.ones_spec_low, Z.shiftl_spec_low by lia.
    now rewrite andb_true_r, xorb_false_r.
  - rewrite Z.ones_spec_high, Z.shiftl_spec, Z.shiftr_spec by lia.
    rewrite andb_false_r. simpl. f_equal. lia.
Qed.

(** ** CRC16: the table driven checksum and the reference *)

Section CrcFacts.
Import Crc.

Lemma crc_bit_spec (x : Z) :
  crc_bit x = Z.lxor (Z.shiftr x 1) (if Z.testbit x 0 then polynom else 0).
Proof.
  unfold crc_bit. rewrite land_one_testbit, negb_involutive.
  destruct (Z.testbit x 0); [reflexivity | now rewrite Z.lxor_0_r].
Qed.

(** A round is linear for exclusive or. *)
Lemma crc_bit_lxor (a b : Z) :
  crc_bit (Z.lxor a b) = Z.lxor (crc_bit a) (crc_bit b).
Proof.
  rewrite !crc_bit_spec, Z.shiftr_lxor, Z.lxor_spec.
  apply Z.bits_inj'. intros n Hn. rewrite !Z.lxor_spec.
  destruct (Z.testbit a 0), (Z.testbit b 0); simpl;
    rewrite ?Z.bits_0;
    destruct (Z.testbit (Z.shiftr a 1) n), (Z.testbit (Z.shiftr b 1) n),
             (Z.testbit polynom n); reflexivity.
Qed.

Lemma crc_rounds_lxor (k : nat) (a b : Z) :
  Nat.iter k crc_bit (Z.lxor a b)
  = Z.lxor (Nat.iter k crc_bit a) (Nat.iter k crc_bit b).
Proof.
  induction k as [| k IH]; [reflexivity |].
  simpl. now rewrite IH, crc_bit_lxor.
Qed.

(** A round on a value whose low bit is clear is a plain shift. *)
Lemma crc_bit_shiftl (y k : Z) :
  0 <= k -> crc_bit (Z.shiftl y (k + 1)) = Z.shiftl y k.
Proof.
  intros Hk. rewrite crc_bit_spec.
  rewrite Z.shiftl_spec_low by lia. rewrite Z.lxor_0_r.
  rewrite Z.shiftr_shiftl_l by lia. f_equal. lia.
Qed.

Lemma crc_rounds_shiftl (k : nat) (y : Z) :
  Nat.iter k crc_bit (Z.shiftl y (Z.of_nat k)) = y.
Proof.
  revert y. induction k as [| k IH]; intros y.
  - apply Z.shiftl_0_r.
  - rewrite Nat.iter_succ_r.
    replace (Z.of_nat (S k)) with (Z.of_nat k + 1) by lia.
    rewrite crc_bit_shiftl by lia. apply IH.
Qed.

(** The table holds, at every index of a byte, eight rounds of it. *)
Lemma table_get_spec (idx : Z) :
  0 <= idx < 256 -> table_get idx = Some (crc_bits8 idx).
Proof.
  intros H. unfold table_get.
  destruct (Z.ltb_spec idx 0) as [Hn | _]; [lia |].
  unfold crc_table, crc_init.
  rewrite nth_error_map.
  rewrite (nth_error_nth' _ 0%nat) by (rewrite length_seq; lia).
  rewrite seq_nth by lia. simpl. f_equal. f_equal. lia.
Qed.

(** One byte: the table step computes what the eight rounds compute. *)
Lemma crc_byte_spec (crcsum : Z) (b : byte) :
  crc_byte crcsum b = Some (crc_slow_byte crcsum b).
Proof.
  unfold crc_byte, crc_slow_byte.
  rewrite table_get_spec
    by (apply lxor_range8; [apply to_Z_range | apply low8_range]).
  f_equal.
  assert (E : Z.lxor crcsum (Bytes.to_Z b)
              = Z.lxor (Z.lxor (Bytes.to_Z b) (Z.land crcsum 0xFF))
                       (Z.shiftl (Z.shiftr crcsum 8) 8)).
  { rewrite Z.lxor_assoc, <- split_low8. apply Z.lxor_comm. }
  rewrite E. unfold crc_bits8.
  set (idx := Z.lxor (Bytes.to_Z b) (Z.land crcsum 0xFF)).
  rewrite (crc_rounds_lxor 8 idx).
  f_equal. symmetry. exact (crc_rounds_shiftl 8 (Z.shiftr crcsum 8)).
Qed.

Lemma crc_loop_spec (data : list byte) (crcsum : Z) :
  crc_loop crcsum data = Some (fold_left crc_slow_byte data crcsum).
Proof.
  revert crcsum. induction data as [| b rest IH]; intros crcsum.
  - reflexivity.
  - simpl. rewrite crc_byte_spec. apply IH.
Qed.

Lemma crc_value (data : list byte) : crc data = Some (crc_slow data).
Proof. unfold crc, crc_slow. now rewrite crc_loop_spec. Qed.

End CrcFacts.

(** C1: for every sequence of bytes the table driven [crc] returns (without
    an index error on its table) the value of the bit by bit reference
    [crc_slow]. *)
Theorem crc_eq_crc_slow (data : list byte) :
  Crc.crc data = Some (Crc.crc_slow data).
Proof.
  unfold Crc.crc, Crc.crc_slow.
  now rewrite crc_loop_spec.
Qed.

(** ** Python slices *)

Section SliceFacts.
Context {A : Type}.
Implicit Types l : list A.

Lemma firstn_min (n : nat) l : firstn (Nat.min n (length l)) l = firstn n l.
Proof.
  destruct (Nat.le_ge_cases n (length l)) as [H | H].
  - now rewrite Nat.min_l.
  - rewrite Nat.min_r by assumption.
    now rewrite firstn_all, firstn_all2.
Qed.

Lemma skipn_min (n : nat) l : skipn (Nat.min n (length l)) l = skipn n l.
Proof.
  destruct (Nat.le_ge_cases n (length l)) as [H | H].
  - now rewrite Nat.min_l.
  - rewrite Nat.min_r by assumption.
    now rewrite skipn_all, skipn_all2.
Qed.

(** [l[:n] + l[n:] == l], for every [n]. *)
Lemma slice_to_from (n : Z) l : Py.slice_to n l ++ Py.slice_from n l = l.
Proof. apply firstn_skipn. Qed.

Lemma slice_to_nonneg (n : Z) l :
  0 <= n -> Py.slice_to n l = firstn (Z.to_nat n) l.
Proof.
  intros H. unfold Py.slice_to, Py.bound.
  destruct (Z.ltb_spec n 0); [lia |]. apply firstn_min.
Qed.

Lemma slice_from_nonneg (n : Z) l :
  0 <= n -> Py.slice_from n l = skipn (Z.to_nat n) l.
Proof.
  intros H. unfold Py.slice_from, Py.bound.
  destruct (Z.ltb_spec n 0); [lia |]. apply skipn_min.
Qed.

Lemma slice_from_length (n : Z) l :
  (length (Py.slice_from n l) <= length l)%nat.
Proof. unfold Py.slice_from. rewrite length_skipn. lia. Qed.

(** [(l1 + l2)[-len(l2):] == l2] and [(l1 + l2)[:-len(l2)] == l1], for a
    non-empty [l2]. *)
Lemma slice_from_neg_app l1 l2 (n : Z) :
  n = Z.of_nat (length l2) -> 0 < n -> Py.slice_from (- n) (l1 ++ l2) = l2.
Proof.
  intros -> H. unfold Py.slice_from, Py.bound.
  destruct (Z.ltb_spec (- Z.of_nat (length l2)) 0); [| lia].
  rewrite length_app.
  replace (Z.to_nat _) with (length l1 + 0)%nat by lia.
  now rewrite skipn_app, skipn_all2, Nat.add_comm, Nat.add_sub by lia.
Qed.

Lemma slice_to_neg_app l1 l2 (n : Z) :
  n = Z.of_nat (length l2) -> 0 < n -> Py.slice_to (- n) (l1 ++ l2) = l1.
Proof.
  intros -> H. unfold Py.slice_to, Py.bound.
  destruct (Z.ltb_spec (- Z.of_nat (length l2)) 0); [| lia].
  rewrite length_app.
  replace (Z.to_nat _) with (length l1 + 0)%nat by lia.
  rewrite firstn_app_2. simpl. apply app_nil_r.
Qed.

Lemma slice_from_app l1 l2 (n : Z) :
  n = Z.of_nat (length l1) -> Py.slice_from n (l1 ++ l2) = l2.
Proof.
  intros ->. rewrite slice_from_nonneg by lia.
  rewrite Nat2Z.id, skipn_app, skipn_all, Nat.sub_diag. reflexivity.
Qed.

End SliceFacts.

(** ** TLV decoder: buffer consumption and termination *)

Section TlvFacts.
Import Tlv.

Lemma store_data f et elem v d : data (store f et elem v d) = d.
Proof. now destruct et. Qed.

Lemma store_elements f et elem v d :
  elements (store f et elem v d) = elements f - 1.
Proof. now destruct et. Qed.

Lemma pop_data_length (len : Z) (d : list byte) :
  (length (snd (pop_data len d)) <= length d)%nat.
Proof. apply slice_from_length. Qed.

Lemma read_tl_more_length (d : list byte) :
  forall tl tl_len tl_bytes tl' tl_len' tl_bytes' d',
    read_tl_more d tl tl_len tl_bytes = Ok (tl', tl_len', tl_bytes', d') ->
    (length d' <= length d)%nat.
Proof.
  induction d as [| b rest IH];
    intros tl tl_len tl_bytes tl' tl_len' tl_bytes' d' H;
    simpl in H; destruct (negb (Z.land tl 128 =? 0)); try discriminate.
  - injection H as <- <- <- <-. lia.
  - apply IH in H. simpl. lia.
  - injection H as <- <- <- <-. lia.
Qed.

Lemma read_tl_more_fuel (d : list byte) :
  forall tl tl_len tl_bytes,
    read_tl_more d tl tl_len tl_bytes <> OutOfFuel.
Proof.
  induction d as [| b rest IH]; intros tl tl_len tl_bytes;
    simpl; destruct (negb (Z.land tl 128 =? 0)); try discriminate.
  apply IH.
Qed.

(** The type-length field takes at least one byte from the buffer. *)
Lemma read_tl_length (d : list byte) tl tl_typ tl_len tl_bytes d' :
  read_tl d = Ok (tl, tl_typ, tl_len, tl_bytes, d') ->
  (length d' < length d)%nat.
Proof.
  destruct d as [| b rest]; [discriminate |]. unfold read_tl.
  destruct (read_tl_more _ _ _ _) as [[[[t l] n] r] | |] eqn:E;
    cbn [bind]; try discriminate.
  intros H. injection H as <- <- <- <- <-.
  apply read_tl_more_length in E. simpl. lia.
Qed.

Lemma read_tl_fuel (d : list byte) : read_tl d <> OutOfFuel.
Proof.
  destruct d as [| b rest]; [discriminate |]. unfold read_tl.
  destruct (read_tl_more _ _ _ _) as [[[[t l] n] r] | |] eqn:E;
    cbn [bind]; try discriminate.
  now apply read_tl_more_fuel in E.
Qed.

Lemma resolve_fuel struct els dict d : resolve struct els dict d <> OutOfFuel.
Proof. unfold resolve. repeat case_match; discriminate. Qed.

(** Whatever one iteration does, it leaves a strictly shorter buffer,
    provided the recursive call does not lengthen it. *)
Lemma parse_item_length rec struct f f' :
  (forall e n d v d', rec e n d = Ok (v, d') -> (length d' <= length d)%nat) ->
  parse_item rec struct f = Ok f' ->
  (length (data f') < length (data f))%nat.
Proof.
  intros Hrec. unfold parse_item.
  destruct (resolve _ _ _ _) as [[et elem] | |]; cbn [bind]; try discriminate.
  destruct (read_tl _) as [[[[[tl tl_typ] tl_len] tl_bytes] d1] | |] eqn:Hrd;
    cbn [bind]; try discriminate.
  apply read_tl_length in Hrd.
  pose proof (pop_data_length (tl_len - tl_bytes) d1) as Hpop.
  pose proof (slice_from_length (tl_len - tl_bytes) d1) as Hsl.
  unfold pop_data in *. cbn [snd] in Hpop.
  intros Hfin.
  repeat case_match; cbn [bind] in *; simplify_eq;
    rewrite ?store_data; cbn [data]; try lia.
  destruct (rec elem tl_len d1) as [[v d2] | |] eqn:E;
    cbn [bind] in Hfin; simplify_eq.
  apply Hrec in E. rewrite store_data. lia.
Qed.


Lemma parse_return_length f v d :
  parse_return f = Ok (v, d) -> d = data f.
Proof. unfold parse_return. repeat case_match; congruence. Qed.

(** The equation of the loop. *)
Lemma parse_loop_S (fuel : nat) struct f :
  parse_loop (S fuel) struct f
  = if parse_continue f then
      letr f' := parse_item
                   (fun elem tl_len data1 =>
                      parse_loop fuel elem (Frame tl_len data1 [] ∅ None))
                   struct f
      in parse_loop fuel struct f'
    else parse_return f.
Proof. reflexivity. Qed.

(** [parse] never lengthens the buffer. *)
Lemma parse_loop_length (fuel : nat) :
  forall struct f v d,
    parse_loop fuel struct f = Ok (v, d) ->
    (length d <= length (data f))%nat.
Proof.
  induction fuel as [| fuel IH]; intros struct f v d H; [discriminate |].
  rewrite parse_loop_S in H. destruct (parse_continue f).
  - destruct (parse_item _ struct f) as [f' | |] eqn:E;
      cbn [bind] in H; try discriminate.
    apply parse_item_length in E.
    + apply IH in H. lia.
    + intros e n d0 v0 d0' H0. apply IH in H0. exact H0.
  - apply parse_return_length in H. subst d. lia.
Qed.

(** An iteration runs out of fuel only through its recursive call, which is
    made on a strictly shorter buffer. *)
Lemma parse_item_fuel rec struct f :
  parse_item rec struct f = OutOfFuel ->
  exists e n d, (length d < length (data f))%nat /\ rec e n d = OutOfFuel.
Proof.
  unfold parse_item.
  destruct (resolve _ _ _ _) as [[et elem] | |] eqn:Hres; cbn [bind];
    try discriminate; [| now intros _; apply resolve_fuel in Hres].
  destruct (read_tl _) as [[[[[tl tl_typ] tl_len] tl_bytes] d1] | |] eqn:Hrd;
    cbn [bind]; try discriminate; [| now intros _; apply read_tl_fuel in Hrd].
  apply read_tl_length in Hrd. unfold pop_data.
  intros Hfin. repeat case_match; try discriminate.
  destruct (rec elem tl_len d1) as [[v d2] | |] eqn:E;
    cbn [bind] in Hfin; try discriminate.
  eauto.
Qed.

(** One unit of fuel per buffered byte, and one more, is enough. *)
Lemma parse_loop_total (fuel : nat) :
  forall struct f,
    (length (data f) < fuel)%nat -> parse_loop fuel struct f <> OutOfFuel.
Proof.
  induction fuel as [| fuel IH]; intros struct f Hlen; [lia |].
  rewrite parse_loop_S. destruct (parse_continue f).
  - destruct (parse_item _ struct f) as [f' | |] eqn:E; cbn [bind];
      try discriminate.
    + apply IH. apply parse_item_length in E; [lia |].
      intros e n d v d' H. now apply parse_loop_length in H.
    + apply parse_item_fuel in E. destruct E as (e & n & d & Hd & E).
      intros _. revert E. apply IH. cbn [data]. lia.
  - unfold parse_return. repeat case_match; discriminate.
Qed.

(** [parse] terminates: it returns or raises. *)
Lemma parse_total struct elements d : parse struct elements d <> OutOfFuel.
Proof. unfold parse. apply parse_loop_total. cbn [data]. lia. Qed.

End TlvFacts.

(** ** TLV decoder: the branches of one iteration *)

Section TlvBranches.
Import Schema Tlv.

Variable rec :
  string -> Z -> list byte -> outcome (list byte) (value * list byte).

(** The iteration once the element is resolved and the type-length field
    is read. *)
Lemma parse_item_dispatch struct f et elem tl tl_typ tl_len tl_bytes data1 :
  resolve struct (elements f) (sml_dict f) (data f) = Ok (et, elem) ->
  read_tl (data f) = Ok (tl, tl_typ, tl_len, tl_bytes, data1) ->
  parse_item rec struct f =
    let data_len := tl_len - tl_bytes in
    if tl_typ =? 0x00 then
      if data_len =? 0 then Ok (store f et elem VNone data1)
      else if tl =? 0 then Ok (store f et elem (VBytes [x00]) data1)
      else Ok (store f et elem (VBytes (Py.slice_to data_len data1))
                     (Py.slice_from data_len data1))
    else if tl_typ =? 0x40 then
      Ok (store f et elem
                (VBool (Py.bool_from_bytes (Py.slice_to data_len data1)))
                (Py.slice_from data_len data1))
    else if tl_typ =? 0x50 then
      Ok (store f et elem
                (VInt (Py.from_bytes_signed (Py.slice_to data_len data1)))
                (Py.slice_from data_len data1))
    else if tl_typ =? 0x60 then
      Ok (store f et elem
                (VInt (Py.from_bytes_unsigned (Py.slice_to data_len data1)))
                (Py.slice_from data_len data1))
    else if tl_typ =? 0x70 then
      letr (val, data2) := rec elem tl_len data1 in
      Ok (store f et elem val data2)
    else
      Ok (Frame (elements f) (Py.slice_from data_len data1)
                (sml_list f) (sml_dict f) (Some et)).
Proof.
  intros Hres Hrd. unfold parse_item. rewrite Hres, Hrd. reflexivity.
Qed.

(** A buffer that starts with the byte [0x00]: the type-length field is
    that byte alone. *)
Lemma read_tl_zero (rest : list byte) :
  read_tl (x00 :: rest) = Ok (0, 0, 0, 1, rest).
Proof. destruct rest; reflexivity. Qed.

End TlvBranches.

(** C10: [pop_data] is total and returns a prefix of the buffer whatever
    length is asked for (the buffer splits into the returned bytes and the
    bytes that stay; for a length that is not negative the returned bytes are
    the first [len] ones, or all of them when fewer are buffered); hence an
    integer element (signed or unsigned) whose payload is missing decodes to
    [0] and a boolean element whose payload is missing decodes to [False]. *)
Theorem primitives_total_under_shortage :
  (forall (len : Z) (d : list byte),
      fst (Tlv.pop_data len d) ++ snd (Tlv.pop_data len d) = d /\
      (0 <= len -> fst (Tlv.pop_data len d) = firstn (Z.to_nat len) d) /\
      Tlv.pop_data len [] = ([], [])) /\
  (forall rec struct f et elem tl tl_typ tl_len tl_bytes,
      Tlv.resolve struct (Tlv.elements f) (Tlv.sml_dict f) (Tlv.data f)
      = Ok (et, elem) ->
      Tlv.read_tl (Tlv.data f) = Ok (tl, tl_typ, tl_len, tl_bytes, []) ->
      (tl_typ = 0x50 \/ tl_typ = 0x60 ->
       Tlv.parse_item rec struct f = Ok (Tlv.store f et elem (VInt 0) [])) /\
      (tl_typ = 0x40 ->
       Tlv.parse_item rec struct f
       = Ok (Tlv.store f et elem (VBool false) []))).
Proof.
  split.
  - intros len d. split; [apply slice_to_from |]. split.
    + intros H. apply slice_to_nonneg, H.
    + unfold Tlv.pop_data, Py.slice_to, Py.slice_from.
      now rewrite firstn_nil, skipn_nil.
  - intros rec struct f et elem tl tl_typ tl_len tl_bytes Hres Hrd.
    rewrite (parse_item_dispatch rec _ _ _ _ _ _ _ _ _ Hres Hrd).
    assert (Hto : forall n, Py.slice_to n (@nil byte) = [])
      by (intros n; unfold Py.slice_to; apply firstn_nil).
    assert (Hfrom : forall n, Py.slice_from n (@nil byte) = [])
      by (intros n; unfold Py.slice_from; apply skipn_nil).
    cbv zeta. rewrite Hto, Hfrom. split.
    + intros [-> | ->]; reflexivity.
    + intros ->. reflexivity.
Qed.

Lemma primitives_total_under_shortage_witness :
  Tlv.resolve "smlFile" (-1) ∅ [x52] = Ok (Tlv.EList, "smlMessage"%string) /\
  Tlv.read_tl [x52] = Ok (0x52, 0x50, 2, 1, []) /\
  (0x50 = 0x50 \/ 0x50 = 0x60) /\
  Tlv.parse_item (fun _ _ d => Ok (VNone, d)) "smlFile"
                 (Tlv.Frame (-1) [x52] [] ∅ None)
  = Ok (Tlv.Frame (-2) [] [VInt 0] ∅ (Some Tlv.EList)).
Proof.
  split; [reflexivity |]. split; [reflexivity |]. split; [now left |].
  apply (proj1 (proj2 primitives_total_under_shortage
                  (fun _ _ d => Ok (VNone, d)) "smlFile"%string
                  (Tlv.Frame (-1) [x52] [] ∅ None) Tlv.EList
                  "smlMessage"%string 0x52 0x50 2 1
                  eq_refl eq_refl)).
  now left.
Defined.

(** ** Octet strings *)

Section OctetStrings.
Import Tlv.

Variable rec :
  string -> Z -> list byte -> outcome (list byte) (value * list byte).

(** A payload length of 0 gives [None], which is not the empty byte
    string. *)
Lemma octet_string_absent struct f et elem tl tl_len tl_bytes data1 :
  resolve struct (elements f) (sml_dict f) (data f) = Ok (et, elem) ->
  read_tl (data f) = Ok (tl, 0x00, tl_len, tl_bytes, data1) ->
  tl_len - tl_bytes = 0 ->
  parse_item rec struct f = Ok (store f et elem VNone data1)
  /\ VNone <> VBytes [].
Proof.
  intros Hres Hrd Hlen.
  rewrite (parse_item_dispatch rec _ _ _ _ _ _ _ _ _ Hres Hrd).
  cbv zeta. rewrite Hlen. split; [reflexivity | discriminate].
Qed.

(** The byte [0x00] alone gives the byte string [b'\x00']. *)
Lemma octet_string_end_of_message struct f et elem rest :
  resolve struct (elements f) (sml_dict f) (data f) = Ok (et, elem) ->
  data f = x00 :: rest ->
  parse_item rec struct f = Ok (store f et elem (VBytes [x00]) rest).
Proof.
  intros Hres Hd.
  assert (Hrd : read_tl (data f) = Ok (0, 0, 0, 1, rest))
    by (rewrite Hd; apply read_tl_zero).
  now rewrite (parse_item_dispatch rec _ _ _ _ _ _ _ _ _ Hres Hrd).
Qed.

(** A type-length field with a positive payload length whose last byte is
    not [0x00] gives the payload bytes (those of them that are buffered). *)
Lemma octet_string_payload struct f et elem tl tl_len tl_bytes data1 :
  resolve struct (elements f) (sml_dict f) (data f) = Ok (et, elem) ->
  read_tl (data f) = Ok (tl, 0x00, tl_len, tl_bytes, data1) ->
  0 < tl_len - tl_bytes ->
  tl <> 0 ->
  parse_item rec struct f
  = Ok (store f et elem
              (VBytes (firstn (Z.to_nat (tl_len - tl_bytes)) data1))
              (skipn (Z.to_nat (tl_len - tl_bytes)) data1)).
Proof.
  intros Hres Hrd Hlen Htl.
  rewrite (parse_item_dispatch rec _ _ _ _ _ _ _ _ _ Hres Hrd).
  cbv zeta.
  destruct (Z.eqb_spec (tl_len - tl_bytes) 0) as [E | _]; [lia |].
  destruct (Z.eqb_spec tl 0) as [E | _]; [contradiction |].
  now rewrite slice_to_nonneg, slice_from_nonneg by lia.
Qed.

(** A type-length field whose last byte is [0x00] gives [b'\x00'] whatever
    payload length it announces, unless that length is 0. *)
Lemma octet_string_last_byte_zero struct f et elem tl_len tl_bytes data1 :
  resolve struct (elements f) (sml_dict f) (data f) = Ok (et, elem) ->
  read_tl (data f) = Ok (0, 0x00, tl_len, tl_bytes, data1) ->
  tl_len - tl_bytes <> 0 ->
  parse_item rec struct f = Ok (store f et elem (VBytes [x00]) data1).
Proof.
  intros Hres Hrd Hlen.
  rewrite (parse_item_dispatch rec _ _ _ _ _ _ _ _ _ Hres Hrd).
  cbv zeta.
  destruct (Z.eqb_spec (tl_len - tl_bytes) 0) as [E | _]; [lia |].
  reflexivity.
Qed.

End OctetStrings.

(** C9, at the input where the code departs from it: the type-length field
    [81 00] announces an octet string of 16 bytes in all, 14 of them payload.
    The decoder takes the last byte [00] of the field for the end-of-message
    byte: it yields [b'\x00'], leaves the 14 payload bytes in the buffer, and
    goes on to decode them as 14 further elements. *)
Theorem octet_string_length_field_ending_in_zero :
  Tlv.read_tl ([x81; x00] ++ repeat x01 14) = Ok (0, 0x00, 16, 2, repeat x01 14)
  /\ Tlv.parse "smlFile" (-1) ([x81; x00] ++ repeat x01 14)
     = Ok (VList (VBytes [x00] :: repeat VNone 14), []).
Proof. split; vm_compute; reflexivity. Qed.

(** ** Elements of unknown type *)

(** What the branch for the other types does: it drops the first
    [data_len] bytes of the buffer ([self.data[data_len:]]), stores nothing
    in the list or the dict, and leaves [elements] as it is. *)
Lemma unknown_tag_skipped :
  forall rec struct f et elem tl tl_typ tl_len tl_bytes data1,
    Tlv.resolve struct (Tlv.elements f) (Tlv.sml_dict f) (Tlv.data f)
    = Ok (et, elem) ->
    Tlv.read_tl (Tlv.data f) = Ok (tl, tl_typ, tl_len, tl_bytes, data1) ->
    tl_typ <> 0x00 -> tl_typ <> 0x40 -> tl_typ <> 0x50 ->
    tl_typ <> 0x60 -> tl_typ <> 0x70 ->
    exists f',
      Tlv.parse_item rec struct f = Ok f'
      /\ Tlv.elements f' = Tlv.elements f
      /\ Tlv.sml_list f' = Tlv.sml_list f
      /\ Tlv.sml_dict f' = Tlv.sml_dict f
      /\ Tlv.data f' = Py.slice_from (tl_len - tl_bytes) data1
      /\ (0 <= tl_len - tl_bytes ->
          Tlv.data f' = skipn (Z.to_nat (tl_len - tl_bytes)) data1).
Proof.
  intros rec struct f et elem tl tl_typ tl_len tl_bytes data1 Hres Hrd
         H0 H4 H5 H6 H7.
  rewrite (parse_item_dispatch rec _ _ _ _ _ _ _ _ _ Hres Hrd). cbv zeta.
  destruct (Z.eqb_spec tl_typ 0); [contradiction |].
  destruct (Z.eqb_spec tl_typ 64); [contradiction |].
  destruct (Z.eqb_spec tl_typ 80); [contradiction |].
  destruct (Z.eqb_spec tl_typ 96); [contradiction |].
  destruct (Z.eqb_spec tl_typ 112); [contradiction |].
  eexists. split; [reflexivity |].
  cbn [Tlv.elements Tlv.sml_list Tlv.sml_dict Tlv.data].
  repeat split. intros Hlen. now apply slice_from_nonneg.
Qed.

(** C6, at the input where the code departs from it: in a [secIndex] struct
    decoded with an element budget of 1, the element [12 aa] of the unknown
    type [0x10] is skipped and nothing is stored for it, but the budget is
    still 1 after it, where every other branch decrements it; the element
    [62 05] that follows is therefore decoded as well, and under the field
    name of the skipped position. *)
Theorem unknown_tag_keeps_budget :
  (exists f',
      Tlv.parse_item Tlv.parse "secIndex"
                     (Tlv.Frame 1 [x12; xaa; x62; x05] [] ∅ None) = Ok f'
      /\ Tlv.data f' = [x62; x05]
      /\ Tlv.sml_dict f' = ∅
      /\ Tlv.elements f' = 1
      /\ Tlv.elements f' <> 1 - 1)
  /\ Tlv.parse "secIndex" 1 [x12; xaa; x62; x05]
     = Ok (VDict {[ "secIndex"%string := VInt 5 ]}, []).
Proof.
  split.
  - eexists. split; [vm_compute; reflexivity |].
    repeat split. discriminate.
  - vm_compute. reflexivity.
Qed.

(** ** Exhausted buffer *)

(** C7, at the inputs where the code departs from it: on an empty buffer the
    loop body never runs, [etyp] is unbound when [parse] comes to return, and
    the call raises instead of returning an empty list or dict, whatever the
    node and the budget; and a buffer that ends inside a type-length field
    makes [pop_data(1)[0]] raise. *)
Theorem parse_empty_buffer_raises :
  (forall (struct : string) (elements : Z),
      Tlv.parse struct elements [] = Raise UnboundLocalError [])
  /\ Tlv.parse "smlFile" (-1) [x80] = Raise IndexError [].
Proof. split; [intros struct elements |]; reflexivity. Qed.

(** When the loop body ran at least once, an exhausted buffer does end the
    call with the list or dict built so far. *)
Lemma parse_return_partial (fuel : nat) (struct : string) (f : Tlv.frame) et :
  Tlv.data f = [] -> Tlv.etyp f = Some et ->
  Tlv.parse_loop (S fuel) struct f
  = Ok (match et with
        | Tlv.EList => VList (Tlv.sml_list f)
        | Tlv.EStruct => VDict (Tlv.sml_dict f)
        end, []).
Proof.
  intros Hd He. rewrite parse_loop_S.
  unfold Tlv.parse_continue, Tlv.parse_return. rewrite Hd, He.
  now destruct et.
Qed.

(** ** Discriminant placeholders *)

Section Discriminants.
Import Schema Tlv.

(** The struct position holds the placeholder ["[timeId]"]: the element
    name is the table entry of the decoded ["timeId"] when there is one and
    it names a schema node, and ["timeId"[:-2]], that is ["time"],
    otherwise. *)
Lemma resolve_timeId struct names els (dict : gmap string value) d :
  sml_struct !! struct = Some (NStruct names) ->
  Py.getitem names (Z.of_nat (length names) - els) = Some "[timeId]"%string ->
  resolve struct els dict d
  = match key_lookup "timeId" dict with
    | None => Ok (EStruct, "time"%string)
    | Some key_str =>
        if bool_decide (is_Some (sml_struct !! key_str))
        then Ok (EStruct, key_str)
        else Ok (EStruct, "time"%string)
    end.
Proof.
  intros Hs Hn. unfold resolve. rewrite Hs, Hn. reflexivity.
Qed.

(** The same for ["[messageId]"], with the fall-back ["message"]. *)
Lemma resolve_messageId struct names els (dict : gmap string value) d :
  sml_struct !! struct = Some (NStruct names) ->
  Py.getitem names (Z.of_nat (length names) - els)
  = Some "[messageId]"%string ->
  resolve struct els dict d
  = match key_lookup "messageId" dict with
    | None => Ok (EStruct, "message"%string)
    | Some key_str =>
        if bool_decide (is_Some (sml_struct !! key_str))
        then Ok (EStruct, key_str)
        else Ok (EStruct, "message"%string)
    end.
Proof.
  intros Hs Hn. unfold resolve. rewrite Hs, Hn. reflexivity.
Qed.

(** The table of ["timeId"] has the keys 1, 2 and 3 only. *)
Lemma key_lookup_timeId (dict : gmap string value) (z : Z) :
  dict !! "timeId"%string = Some (VInt z) ->
  key_lookup "timeId" dict
  = if z =? 1 then Some "secIndex"%string
    else if z =? 2 then Some "timestamp"%string
    else if z =? 3 then Some "localTimestamp"%string
    else None.
Proof.
  intros Hd. unfold key_lookup. rewrite Hd.
  change (key_names !! "timeId"%string)
    with (Some (list_to_map (M := gmap Z string)
                  [ (1, "secIndex"%string); (2, "timestamp"%string);
                    (3, "localTimestamp"%string) ])).
  cbn [int_key].
  destruct (Z.eqb_spec z 1) as [-> | H1]; [reflexivity |].
  destruct (Z.eqb_spec z 2) as [-> | H2]; [reflexivity |].
  destruct (Z.eqb_spec z 3) as [-> | H3]; [reflexivity |].
  cbn [list_to_map foldr fst snd].
  rewrite !lookup_insert_ne by congruence. apply lookup_empty.
Qed.

End Discriminants.

(** C8 as stated fails: in a [refTime] struct whose [timeId] is 4, a value
    without table entry, the fall-back name [time] is not a schema node, and
    yet decoding does not fail: the unsigned 5 that follows is stored under
    ["time"]. *)
Lemma discriminant_fallback_counterexample :
  Schema.sml_struct !! "time"%string = None
  /\ Tlv.parse "refTime" 2 [x62; x04; x62; x05]
     = Ok (VDict (<[ "time"%string := VInt 5 ]>
                    {[ "timeId"%string := VInt 4 ]}), [])
  /\ ~ (exists e d, Tlv.parse "refTime" 2 [x62; x04; x62; x05] = Raise e d).
Proof.
  split; [reflexivity |].
  assert (E : Tlv.parse "refTime" 2 [x62; x04; x62; x05]
              = Ok (VDict (<[ "time"%string := VInt 5 ]>
                             {[ "timeId"%string := VInt 4 ]}), []))
    by (vm_compute; reflexivity).
  split; [exact E |]. rewrite E. intros (e & d & H). discriminate.
Qed.

(** C8, amended: at a struct position that holds the placeholder
    ["[timeId]"], the element is decoded under the name [secIndex] when the
    sibling [timeId] decoded to 1 and [timestamp] when it decoded to 2; for a
    discriminant without table entry (an integer other than 1, 2, 3, or a
    [timeId] that is missing from the dict) the name is [time], the field name
    without its last two characters.  [time] is not a schema node, and the
    resolution returns it all the same: it does not raise. *)
Theorem discriminant_resolution :
  forall struct names els (dict : gmap string value) (d : list byte),
    Schema.sml_struct !! struct = Some (Schema.NStruct names) ->
    Py.getitem names (Z.of_nat (length names) - els) = Some "[timeId]"%string ->
    (dict !! "timeId"%string = Some (VInt 1) ->
     Tlv.resolve struct els dict d = Ok (Tlv.EStruct, "secIndex"%string))
    /\ (dict !! "timeId"%string = Some (VInt 2) ->
        Tlv.resolve struct els dict d = Ok (Tlv.EStruct, "timestamp"%string))
    /\ (forall z, dict !! "timeId"%string = Some (VInt z) ->
                  z <> 1 -> z <> 2 -> z <> 3 ->
                  Tlv.resolve struct els dict d
                  = Ok (Tlv.EStruct, "time"%string))
    /\ (dict !! "timeId"%string = None ->
        Tlv.resolve struct els dict d = Ok (Tlv.EStruct, "time"%string))
    /\ Py.str_slice_to (-2) "timeId" = "time"%string
    /\ Schema.sml_struct !! "time"%string = None.
Proof.
  intros struct names els dict d Hs Hn.
  rewrite (resolve_timeId _ _ _ dict d Hs Hn).
  repeat split.
  - intros H. now rewrite (key_lookup_timeId _ _ H).
  - intros H. now rewrite (key_lookup_timeId _ _ H).
  - intros z H H1 H2 H3. rewrite (key_lookup_timeId _ _ H).
    destruct (Z.eqb_spec z 1); [contradiction |].
    destruct (Z.eqb_spec z 2); [contradiction |].
    destruct (Z.eqb_spec z 3); [contradiction |]. reflexivity.
  - intros H. unfold Tlv.key_lookup. rewrite H.
    now destruct (Schema.key_names !! "timeId"%string).
Qed.

Lemma discriminant_resolution_witness :
  Schema.sml_struct !! "refTime"%string
  = Some (Schema.NStruct ["timeId"; "[timeId]"]%string)
  /\ Py.getitem ["timeId"; "[timeId]"]%string (2 - 1) = Some "[timeId]"%string
  /\ ({[ "timeId"%string := VInt 1 ]} : gmap string value) !! "timeId"%string
     = Some (VInt 1)
  /\ Tlv.resolve "refTime" 1 {[ "timeId"%string := VInt 1 ]} []
     = Ok (Tlv.EStruct, "secIndex"%string).
Proof.
  split; [reflexivity |]. split; [reflexivity |]. split; [reflexivity |].
  apply (proj1 (discriminant_resolution "refTime"%string
                  ["timeId"; "[timeId]"]%string 1
                  {[ "timeId"%string := VInt 1 ]} [] eq_refl eq_refl)).
  reflexivity.
Defined.

(** ** Frame assembler: the steps of the state machine *)

Section FrameSteps.
Import Frame Wire.

Lemma feed_app (l1 l2 : list byte) :
  forall s,
    feed s (l1 ++ l2)
    = letr (r1, s1) := feed s l1 in
      letr (r2, s2) := feed s1 l2 in
      Ok (r1 ++ r2, s2).
Proof.
  induction l1 as [| b l1 IH]; intros s.
  - cbn [app feed bind]. now destruct (feed s l2) as [[r2 s2] | |].
  - cbn [app feed].
    destruct (parse_byte s b) as [[r s'] | |]; cbn [bind]; try reflexivity.
    rewrite IH.
    destruct (feed s' l1) as [[r1 s1] | |]; cbn [bind]; try reflexivity.
    now destruct (feed s1 l2) as [[r2 s2] | |].
Qed.

(** Outside an escape code, a byte other than [0x1b] resets the run. *)
Lemma parse_byte_plain file d k st (b : byte) :
  Bytes.eqb b x1b = false ->
  parse_byte (MkSml file d false k st) b
  = Ok (false, MkSml file (d ++ [b]) false 0 st).
Proof.
  intros H. unfold parse_byte.
  cbn [esc_sequence negb data sml_file message_started]. now rewrite H.
Qed.

(** Outside an escape code, [0x1b] lengthens the run; the fourth one opens
    the escape code. *)
Lemma parse_byte_escape file d k st (b : byte) :
  Bytes.eqb b x1b = true ->
  parse_byte (MkSml file d false k st) b
  = Ok (false, MkSml file (d ++ [b]) (k + 1 =? 4) (k + 1) st).
Proof.
  intros H. unfold parse_byte.
  cbn [esc_sequence negb data sml_file message_started esc_count].
  rewrite H. now destruct (k + 1 =? 4).
Qed.

(** Inside an escape code, its first three bytes are only counted. *)
Lemma parse_byte_counting file d k st (b : byte) :
  k - 1 <> 0 ->
  parse_byte (MkSml file d true k st) b
  = Ok (false, MkSml file (d ++ [b]) true (k - 1) st).
Proof.
  intros H. unfold parse_byte.
  cbn [esc_sequence negb data sml_file message_started esc_count].
  now destruct (Z.eqb_spec (k - 1) 0).
Qed.

(** The fourth byte of an escape code is dispatched. *)
Lemma parse_byte_code file d st (b : byte) :
  parse_byte (MkSml file d true 1 st) b
  = escape_code (MkSml file d true 1 st) (d ++ [b]) 0.
Proof. reflexivity. Qed.

Lemma feed_escape file d st :
  feed (MkSml file d false 0 st) escape
  = Ok (repeat false 4, MkSml file (d ++ escape) true 4 st).
Proof.
  unfold escape. cbn [feed].
  repeat (rewrite parse_byte_escape by reflexivity; cbn [bind]).
  cbn. now rewrite <- !app_assoc.
Qed.

Lemma feed_code3 file d st (a b c : byte) :
  feed (MkSml file d true 4 st) [a; b; c]
  = Ok (repeat false 3, MkSml file (d ++ [a; b; c]) true 1 st).
Proof.
  cbn [feed].
  repeat (rewrite parse_byte_counting by (cbn; discriminate); cbn [bind]).
  cbn. now rewrite <- !app_assoc.
Qed.

(** A body without escape runs goes to the buffer, byte by byte. *)
Lemma feed_body (body : list byte) :
  forall file d (run : nat) st,
    (run < 4)%nat ->
    escape_free run body = true ->
    feed (MkSml file d false (Z.of_nat run) st) body
    = Ok (repeat false (length body), MkSml file (d ++ body) false 0 st).
Proof.
  induction body as [| b rest IH]; intros file d run st Hrun Hfree.
  - cbn [escape_free] in Hfree. apply Nat.eqb_eq in Hfree. subst run.
    cbn [feed length repeat]. now rewrite app_nil_r.
  - cbn [escape_free] in Hfree. cbn [feed].
    destruct (Bytes.eqb b x1b) eqn:Hb.
    + apply andb_true_iff in Hfree. destruct Hfree as [Hlt Hfree].
      apply Nat.ltb_lt in Hlt.
      rewrite parse_byte_escape by assumption. cbn [bind].
      destruct (Z.eqb_spec (Z.of_nat run + 1) 4) as [E | _]; [lia |].
      replace (Z.of_nat run + 1) with (Z.of_nat (S run)) by lia.
      rewrite (IH file (d ++ [b]) (S run) st Hlt Hfree). cbn [bind].
      now rewrite <- app_assoc.
    + rewrite parse_byte_plain by assumption. cbn [bind].
      change 0 with (Z.of_nat 0).
      rewrite (IH file (d ++ [b]) 0%nat st) by (lia || assumption).
      cbn [bind]. now rewrite <- app_assoc.
Qed.

(** The start code: the message is started and the buffer is cut down to
    the start marker. *)
Lemma escape_code_start file d0 d st :
  escape_code (MkSml file d0 true 1 st) (d ++ start_marker) 0
  = Ok (false, MkSml file start_marker false 0 true).
Proof.
  unfold escape_code.
  assert (E4 : Py.slice_from (-4) (d ++ start_marker) = [x01; x01; x01; x01]).
  { unfold start_marker. rewrite app_assoc.
    now apply (slice_from_neg_app _ _ 4). }
  rewrite E4.
  assert (E8 : Py.slice_from (-8) (d ++ start_marker) = start_marker)
    by (now apply (slice_from_neg_app _ _ 8)).
  rewrite E8. reflexivity.
Qed.

(** From an idle state, whatever the buffer holds, the start marker starts a
    message. *)
Lemma feed_start (s : Sml) :
  esc_sequence s = false -> esc_count s = 0 ->
  feed s start_marker
  = Ok (repeat false 8, MkSml (sml_file s) start_marker false 0 true).
Proof.
  destruct s as [file d es ec st]. cbn [esc_sequence esc_count sml_file].
  intros -> ->. unfold start_marker.
  rewrite feed_app, feed_escape. cbn [bind].
  change [x01; x01; x01; x01] with ([x01; x01; x01] ++ [x01]).
  rewrite feed_app, feed_code3. cbn [bind feed].
  rewrite parse_byte_code.
  replace (((d ++ escape) ++ [x01; x01; x01]) ++ [x01])
    with (d ++ start_marker)
    by (unfold start_marker; now rewrite <- !app_assoc).
  rewrite escape_code_start. reflexivity.
Qed.

(** [crc_msg] reads the two checksum bytes low byte first. *)
Lemma crc_msg_end_code (pp c1 c2 : byte) :
  crc_msg [x1a; pp; c1; c2] = Bytes.to_Z c2 * 256 + Bytes.to_Z c1.
Proof. reflexivity. Qed.

(** The end code of a started message: the checksum of the buffer without
    its last two bytes decides between decoding and dropping the buffer. *)
Lemma escape_code_end file d0 pre (pp c1 c2 : byte) :
  escape_code (MkSml file d0 true 1 true) (pre ++ [x1a; pp; c1; c2]) 0
  = if Crc.crc_slow (pre ++ [x1a; pp]) =? Bytes.to_Z c2 * 256 + Bytes.to_Z c1
    then decode (MkSml file d0 true 1 true)
                (Py.slice_to (- (8 + Bytes.to_Z pp))
                             (Py.slice_from 8 (pre ++ [x1a; pp; c1; c2])))
                0
    else Ok (false, MkSml file [] false 0 false).
Proof.
  unfold escape_code.
  assert (E4 : Py.slice_from (-4) (pre ++ [x1a; pp; c1; c2])
               = [x1a; pp; c1; c2])
    by (now apply (slice_from_neg_app _ _ 4)).
  rewrite E4.
  cbn [Bytes.bytes_eqb Bytes.eqb Byte.eqb Byte.to_bits andb].
  change (Bytes.bytes_eqb [x1a; pp; c1; c2] [x1b; x1b; x1b; x1b]) with false.
  change (Bytes.bytes_eqb [x1a; pp; c1; c2] [x01; x01; x01; x01]) with false.
  change (Py.slice 0 1 [x1a; pp; c1; c2]) with [x1a].
  cbv iota.
  change (Bytes.bytes_eqb [x1a] [x02]) with false.
  change (Bytes.bytes_eqb [x1a] [x03]) with false.
  change (Bytes.bytes_eqb [x1a] [x04]) with false.
  change (Bytes.bytes_eqb [x1a] [x1a]) with true.
  cbv iota. unfold end_of_message.
  cbn [message_started sml_file].
  change (Py.getitem [x1a; pp; c1; c2] 1) with (Some pp).
  cbv iota beta zeta. rewrite crc_msg_end_code.
  replace (Py.slice_to (-2) (pre ++ [x1a; pp; c1; c2])) with (pre ++ [x1a; pp]).
  - now rewrite crc_value.
  - change (pre ++ [x1a; pp; c1; c2]) with (pre ++ [x1a; pp] ++ [c1; c2]).
    rewrite app_assoc. symmetry. now apply (slice_to_neg_app _ _ 2).
Qed.

End FrameSteps.

(** ** Frame assembler: whole frames *)

Section FrameFacts.
Import Frame Wire.

(** The end code with a checksum that matches: the payload is decoded. *)
Lemma accept_end_code file d0 (hd payload pad m4 : list byte)
      (pp c1 c2 : byte) :
  length hd = 8%nat -> length m4 = 4%nat ->
  Z.of_nat (length pad) = Bytes.to_Z pp ->
  Crc.crc (hd ++ payload ++ pad ++ m4 ++ [x1a; pp])
  = Some (Bytes.to_Z c2 * 256 + Bytes.to_Z c1) ->
  escape_code (MkSml file d0 true 1 true)
              (hd ++ payload ++ pad ++ m4 ++ [x1a; pp; c1; c2]) 0
  = decode (MkSml file d0 true 1 true) payload 0.
Proof.
  intros Hhd Hm4 Hpad Hcrc.
  rewrite crc_value in Hcrc. injection Hcrc as Hcrc.
  rewrite !app_assoc in Hcrc.
  rewrite !app_assoc. rewrite escape_code_end, Hcrc, Z.eqb_refl.
  f_equal. rewrite <- !app_assoc.
  rewrite (slice_from_app hd _ 8) by (now rewrite Hhd).
  apply slice_to_neg_app; [| lia].
  rewrite !length_app, Hm4. cbn [length]. lia.
Qed.


(** From an idle state, a frame whose body has no escape run, whose
    checksum matches and whose payload decodes is answered by [False] on
    every byte but the last and [True] on the last. *)
Lemma feed_frame (s : Sml) (payload pad : list byte) (pp c1 c2 : byte) v rest :
  esc_sequence s = false -> esc_count s = 0 ->
  Z.of_nat (length pad) = Bytes.to_Z pp ->
  escape_free 0 (payload ++ pad) = true ->
  Crc.crc (checked (payload ++ pad) pp)
  = Some (Bytes.to_Z c2 * 256 + Bytes.to_Z c1) ->
  Tlv.parse "smlFile" (-1) payload = Ok (v, rest) ->
  feed s (frame (payload ++ pad) pp c1 c2)
  = Ok (repeat false (length (frame (payload ++ pad) pp c1 c2) - 1) ++ [true],
        MkSml v rest false 0 false).
Proof.
  intros Hes Hec Hpad Hfree Hcrc Hparse.
  unfold frame, end_marker.
  change [x1a; pp; c1; c2] with ([x1a; pp; c1] ++ [c2]).
  rewrite feed_app, (feed_start s Hes Hec). cbn [bind].
  rewrite feed_app.
  rewrite (feed_body _ _ _ 0%nat) by (lia || assumption). cbn [bind].
  rewrite feed_app, feed_escape. cbn [bind].
  rewrite feed_app, feed_code3. cbn [bind feed].
  rewrite parse_byte_code.
  replace ((((start_marker ++ payload ++ pad) ++ escape) ++ [x1a; pp; c1])
             ++ [c2])
    with (start_marker ++ payload ++ pad ++ escape ++ [x1a; pp; c1; c2])
    by (now rewrite <- !app_assoc).
  unfold checked in Hcrc. rewrite <- app_assoc in Hcrc.
  rewrite (accept_end_code _ _ start_marker payload pad escape pp c1 c2)
    by (reflexivity || assumption).
  unfold decode. rewrite Hparse. cbn [bind].
  f_equal. f_equal.
  set (body := payload ++ pad).
  replace (length (start_marker ++ body ++ escape ++ [x1a; pp; c1] ++ [c2])
           - 1)%nat
    with (8 + (length body + (4 + 3)))%nat
    by (rewrite !length_app; cbn [length start_marker escape app]; lia).
  rewrite !repeat_app. now rewrite <- !app_assoc.
Qed.

(** Conversions between bytes and their integers. *)
Lemma to_Z_of_Z (z : Z) : 0 <= z < 256 -> Bytes.to_Z (Bytes.of_Z z) = z.
Proof.
  intros H. unfold Bytes.to_Z, Bytes.of_Z.
  destruct (Byte.of_N (Z.to_N z)) as [b |] eqn:E.
  - apply Byte.to_of_N in E. rewrite E. lia.
  - apply Byte.of_N_None_iff in E. lia.
Qed.

Lemma to_Z_inj (a b : byte) : Bytes.to_Z a = Bytes.to_Z b -> a = b.
Proof.
  unfold Bytes.to_Z. intros H. apply N2Z.inj in H.
  apply (f_equal Byte.of_N) in H. rewrite !Byte.of_to_N in H. congruence.
Qed.


(** The two checksum bytes determine the value they are read as. *)
Lemma crc_msg_inj (c1 c2 c1' c2' : byte) :
  Bytes.to_Z c2 * 256 + Bytes.to_Z c1 = Bytes.to_Z c2' * 256 + Bytes.to_Z c1' ->
  c1 = c1' /\ c2 = c2'.
Proof.
  intros H.
  pose proof (to_Z_range c1). pose proof (to_Z_range c2).
  pose proof (to_Z_range c1'). pose proof (to_Z_range c2').
  split; apply to_Z_inj; lia.
Qed.

(** [parse_byte] terminates. *)
Lemma parse_byte_terminates (s : Sml) (b : byte) : parse_byte s b <> OutOfFuel.
Proof.
  unfold parse_byte, escape_code, end_of_message, decode.
  repeat case_match; try discriminate.
  match goal with H : Tlv.parse _ _ _ = OutOfFuel |- _ =>
    now apply parse_total in H end.
Qed.

End FrameFacts.

(** ** Frame assembler: end of message *)

(** C2 as stated fails: the buffer holds the start marker, the payload [00]
    with three padding bytes, and the end code [1a 03 18 ef], whose last two
    bytes read as a big-endian number are the checksum [0x18ef] of the bytes
    before them.  The code reads them low byte first, as [0xef18], finds a
    mismatch, returns [False] and empties the buffer. *)
Lemma big_endian_crc_counterexample :
  Crc.crc (Wire.checked [x00; x00; x00; x00] x03)
  = Some (Bytes.to_Z x18 * 256 + Bytes.to_Z xef)
  /\ Frame.parse_byte
       (Frame.MkSml (VList [])
                    (Wire.start_marker ++ [x00; x00; x00; x00] ++ Wire.escape
                       ++ [x1a; x03; x18])
                    true 1 true)
       xef
     = Ok (false, Frame.MkSml (VList []) [] false 0 false)
  /\ Frame.feed Frame.init (Wire.frame [x00; x00; x00; x00] x03 x18 xef)
     = Ok (repeat false 20, Frame.MkSml (VList []) [] false 0 false).
Proof. repeat split; vm_compute; reflexivity. Qed.

(** C2, amended: when the last byte [c2] of an end code [1a pp c1 c2] arrives
    while a message is started, the checksum of all buffered bytes but the
    last two is compared with [c2 * 256 + c1], the last two bytes read low
    byte first; if they are equal, the first 8 bytes and the last [8 + pp]
    bytes are dropped, the bytes in between are decoded as [smlFile], and,
    when the decoder returns, the call returns [True] with the decoded file
    stored and [message_started] reset. *)
Theorem end_of_message_decodes :
  forall (s : Frame.Sml) (hd payload pad m4 : list byte) (pp c1 c2 : byte)
         (v : value) (rest : list byte),
    Frame.esc_sequence s = true ->
    Frame.esc_count s = 1 ->
    Frame.message_started s = true ->
    Frame.data s = hd ++ payload ++ pad ++ m4 ++ [x1a; pp; c1] ->
    length hd = 8%nat ->
    length m4 = 4%nat ->
    Z.of_nat (length pad) = Bytes.to_Z pp ->
    Crc.crc (hd ++ payload ++ pad ++ m4 ++ [x1a; pp])
    = Some (Bytes.to_Z c2 * 256 + Bytes.to_Z c1) ->
    Tlv.parse "smlFile" (-1) payload = Ok (v, rest) ->
    Frame.parse_byte s c2 = Ok (true, Frame.MkSml v rest false 0 false).
Proof.
  intros [file d es ec st] hd payload pad m4 pp c1 c2 v rest.
  cbn [Frame.esc_sequence Frame.esc_count Frame.message_started Frame.data].
  intros -> -> -> -> Hhd Hm4 Hpad Hcrc Hparse.
  rewrite parse_byte_code.
  replace ((hd ++ payload ++ pad ++ m4 ++ [x1a; pp; c1]) ++ [c2])
    with (hd ++ payload ++ pad ++ m4 ++ [x1a; pp; c1; c2])
    by (now rewrite <- !app_assoc).
  rewrite (accept_end_code _ _ hd payload pad m4 pp c1 c2 Hhd Hm4 Hpad Hcrc).
  unfold Frame.decode. now rewrite Hparse.
Qed.

Lemma end_of_message_decodes_witness :
  Frame.esc_sequence
    (Frame.MkSml (VList [])
       (Wire.start_marker ++ [x00] ++ [x00; x00; x00] ++ Wire.escape
          ++ [x1a; x03; xef])
       true 1 true) = true
  /\ Frame.esc_count
       (Frame.MkSml (VList [])
          (Wire.start_marker ++ [x00] ++ [x00; x00; x00] ++ Wire.escape
             ++ [x1a; x03; xef])
          true 1 true) = 1
  /\ Frame.message_started
       (Frame.MkSml (VList [])
          (Wire.start_marker ++ [x00] ++ [x00; x00; x00] ++ Wire.escape
             ++ [x1a; x03; xef])
          true 1 true) = true
  /\ length Wire.start_marker = 8%nat
  /\ length Wire.escape = 4%nat
  /\ Z.of_nat (length [x00; x00; x00]) = Bytes.to_Z x03
  /\ Crc.crc (Wire.start_marker ++ [x00] ++ [x00; x00; x00] ++ Wire.escape
                ++ [x1a; x03])
     = Some (Bytes.to_Z x18 * 256 + Bytes.to_Z xef)
  /\ Tlv.parse "smlFile" (-1) [x00] = Ok (VList [VBytes [x00]], [])
  /\ Frame.parse_byte
       (Frame.MkSml (VList [])
          (Wire.start_marker ++ [x00] ++ [x00; x00; x00] ++ Wire.escape
             ++ [x1a; x03; xef])
          true 1 true)
       x18
     = Ok (true, Frame.MkSml (VList [VBytes [x00]]) [] false 0 false).
Proof.
  repeat (split; [reflexivity |]).
  apply (end_of_message_decodes
           (Frame.MkSml (VList [])
              (Wire.start_marker ++ [x00] ++ [x00; x00; x00] ++ Wire.escape
                 ++ [x1a; x03; xef])
              true 1 true)
           Wire.start_marker [x00] [x00; x00; x00] Wire.escape x03 xef x18
           (VList [VBytes [x00]]) []); reflexivity.
Defined.

(** ** Frame assembler: whole frames on a fresh instance *)




(** ** Frame assembler: checksum mismatch *)




(** ** Frame assembler: exceptions of the decoder *)

(** C5, at the inputs where the code departs from it.  A frame with the
    right checksum and an empty payload: on its last byte the decoder is
    called on an empty buffer and raises [UnboundLocalError], which is not an
    [SmlException] and leaves [parse_byte].  A frame whose payload
    [71 71 01] nests a list where the schema has no node: the look-up of the
    node raises [KeyError], which leaves [parse_byte] as well. *)
Theorem decoder_exception_leaves_parse_byte :
  Frame.feed Frame.init (Wire.start_marker ++ Wire.escape ++ [x1a; x00; xc6])
  = Ok (repeat false 15,
        Frame.MkSml (VList [])
                    (Wire.start_marker ++ Wire.escape ++ [x1a; x00; xc6])
                    true 1 true)
  /\ Frame.parse_byte
       (Frame.MkSml (VList [])
                    (Wire.start_marker ++ Wire.escape ++ [x1a; x00; xc6])
                    true 1 true)
       xe5
     = Raise UnboundLocalError (Frame.MkSml (VList []) [] false 0 false)
  /\ Frame.feed Frame.init (Wire.frame [] x00 xc6 xe5)
     = Raise UnboundLocalError (Frame.MkSml (VList []) [] false 0 false)
  /\ Frame.feed Frame.init (Wire.frame [x71; x71; x01; x00] x01 xca x1a)
     = Raise KeyError (Frame.MkSml (VList []) [x01] false 0 false).
Proof. repeat split; vm_compute; reflexivity. Qed.

(** * Further properties of the code *)

(** ** CRC16: the checksum is a 16-bit value *)

Section CrcRange.
Import Crc.

Lemma lxor_range_pow2 (k a b : Z) :
  0 <= k -> 0 <= a < 2 ^ k -> 0 <= b < 2 ^ k -> 0 <= Z.lxor a b < 2 ^ k.
Proof.
  intros Hk Ha Hb.
  assert (E : Z.lxor a b = Z.land (Z.lxor a b) (Z.ones k)).
  { apply Z.bits_inj'. intros n Hn.
    rewrite Z.land_spec, !Z.lxor_spec.
    destruct (Z.ltb_spec n k) as [Hlt | Hge].
    - rewrite Z.ones_spec_low by lia. now rewrite andb_true_r.
    - rewrite <- (Z.mod_small a (2 ^ k)), <- (Z.mod_small b (2 ^ k)) by lia.
      rewrite !Z.mod_pow2_bits_high by lia. reflexivity. }
  rewrite E, Z.land_ones by lia. apply Z.mod_pos_bound. lia.
Qed.

Lemma crc_bit_range (x : Z) : 0 <= x < 2 ^ 16 -> 0 <= crc_bit x < 2 ^ 16.
Proof.
  intros Hx. rewrite crc_bit_spec. apply lxor_range_pow2; [lia | |].
  - rewrite Z.shiftr_div_pow2 by lia. change (2 ^ 1) with 2.
    split; [apply Z.div_pos; lia |].
    apply Z.div_lt_upper_bound; lia.
  - destruct (Z.testbit x 0); unfold polynom; lia.
Qed.

Lemma crc_rounds_range (k : nat) (x : Z) :
  0 <= x < 2 ^ 16 -> 0 <= Nat.iter k crc_bit x < 2 ^ 16.
Proof.
  intros Hx. induction k as [| k IH]; [exact Hx |].
  cbn [Nat.iter]. now apply crc_bit_range.
Qed.

Lemma crc_slow_byte_range (crcsum : Z) (b : byte) :
  0 <= crcsum < 2 ^ 16 -> 0 <= crc_slow_byte crcsum b < 2 ^ 16.
Proof.
  intros Hc. unfold crc_slow_byte, crc_bits8. apply crc_rounds_range.
  apply lxor_range_pow2; [lia | exact Hc |].
  pose proof (to_Z_range b). lia.
Qed.

Lemma crc_fold_range (data : list byte) :
  forall crcsum,
    0 <= crcsum < 2 ^ 16 ->
    0 <= fold_left crc_slow_byte data crcsum < 2 ^ 16.
Proof.
  induction data as [| b rest IH]; intros crcsum Hc; [exact Hc |].
  cbn [fold_left]. apply IH. now apply crc_slow_byte_range.
Qed.

Lemma crc_slow_range (data : list byte) : 0 <= crc_slow data < 2 ^ 16.
Proof.
  unfold crc_slow. apply lxor_range_pow2; [lia | | lia].
  apply crc_fold_range. lia.
Qed.

End CrcRange.

(** X1: the checksum of any byte sequence, by the table or bit by bit, is a
    number of 16 bits; the accumulator never leaves that range although
    Python integers are unbounded. *)
Theorem crc_is_16_bit (data : list byte) :
  exists c, Crc.crc data = Some c /\ Crc.crc_slow data = c /\ 0 <= c < 65536.
Proof.
  exists (Crc.crc_slow data). split; [apply crc_value |].
  split; [reflexivity |]. apply crc_slow_range.
Qed.

(** ** Checksum bytes *)

Lemma crc_bytes_read_back (c : Z) (a b : byte) :
  0 <= c < 65536 ->
  Frame.crc_msg [a; b; fst (Sealed.crc_bytes c); snd (Sealed.crc_bytes c)] = c.
Proof.
  intros Hc.
  change (Frame.crc_msg
            [a; b; fst (Sealed.crc_bytes c); snd (Sealed.crc_bytes c)])
    with (Bytes.to_Z (Bytes.of_Z (Z.shiftr c 8)) * 256
          + Bytes.to_Z (Bytes.of_Z (Z.land c 0xFF))).
  rewrite !to_Z_of_Z.
  - change 0xFF with (Z.ones 8). rewrite Z.land_ones by lia.
    rewrite Z.shiftr_div_pow2 by lia. change (2 ^ 8) with 256.
    pose proof (Z.div_mod c 256). lia.
  - apply low8_range.
  - rewrite Z.shiftr_div_pow2 by lia. change (2 ^ 8) with 256.
    split; [apply Z.div_pos; lia | apply Z.div_lt_upper_bound; lia].
Qed.

(** X2: splitting a checksum into its low and its high byte and reading the
    two bytes back the way [parse_byte] reads the end of an escape code
    gives the checksum again, for the checksum of every byte sequence. *)
Theorem checksum_bytes_round_trip (data : list byte) (a b : byte) :
  Frame.crc_msg [a; b;
                 fst (Sealed.crc_bytes (Crc.crc_slow data));
                 snd (Sealed.crc_bytes (Crc.crc_slow data))]
  = Crc.crc_slow data
  /\ Crc.crc data
     = Some (Frame.crc_msg [a; b;
                            fst (Sealed.crc_bytes (Crc.crc_slow data));
                            snd (Sealed.crc_bytes (Crc.crc_slow data))]).
Proof.
  assert (E := crc_bytes_read_back (Crc.crc_slow data) a b
                 (crc_slow_range data)).
  split; [exact E |]. rewrite E. apply crc_value.
Qed.

(** X3: a frame sealed with its own checksum, whose payload and padding hold
    no escape run and whose payload the decoder returns on, is accepted: fed
    to a fresh instance it is answered [False] on all bytes but the last and
    [True] on the last, with the decoded payload in [sml_file]. *)
Theorem sealed_frame_accepted :
  forall (payload pad : list byte) (pp : byte) (v : value) (rest : list byte),
    Z.of_nat (length pad) = Bytes.to_Z pp ->
    Wire.escape_free 0 (payload ++ pad) = true ->
    Tlv.parse "smlFile" (-1) payload = Ok (v, rest) ->
    Frame.feed Frame.init (Sealed.frame (payload ++ pad) pp)
    = Ok (repeat false (length (Sealed.frame (payload ++ pad) pp) - 1)
            ++ [true],
          Frame.MkSml v rest false 0 false).
Proof.
  intros payload pad pp v rest Hpad Hfree Hparse.
  unfold Sealed.frame. cbv zeta.
  apply feed_frame; try assumption || reflexivity.
  rewrite crc_value. f_equal. symmetry.
  rewrite <- (crc_msg_end_code pp).
  apply crc_bytes_read_back, crc_slow_range.
Qed.

Lemma sealed_frame_accepted_witness :
  Z.of_nat (length [x00; x00; x00]) = Bytes.to_Z x03
  /\ Wire.escape_free 0 ([x00] ++ [x00; x00; x00]) = true
  /\ Tlv.parse "smlFile" (-1) [x00] = Ok (VList [VBytes [x00]], [])
  /\ Frame.feed Frame.init (Sealed.frame ([x00] ++ [x00; x00; x00]) x03)
     = Ok (repeat false
             (length (Sealed.frame ([x00] ++ [x00; x00; x00]) x03) - 1)
             ++ [true],
           Frame.MkSml (VList [VBytes [x00]]) [] false 0 false).
Proof.
  repeat (split; [reflexivity |]).
  apply (sealed_frame_accepted [x00] [x00; x00; x00] x03
           (VList [VBytes [x00]]) []); reflexivity.
Defined.

(** ** Frame assembler: what holds in every reachable state *)

Section Reachable.
Import Frame.

(** Every outcome of [escape_code] leaves the instance outside an escape
    code with the counter it was given. *)
Lemma escape_code_idle s d k :
  (forall r s', escape_code s d k = Ok (r, s') ->
                esc_sequence s' = false /\ esc_count s' = k)
  /\ (forall e s', escape_code s d k = Raise e s' ->
                   esc_sequence s' = false /\ esc_count s' = k).
Proof.
  unfold escape_code, end_of_message, decode.
  split; intros; repeat case_match; simplify_eq; now cbn.
Qed.

Lemma parse_byte_counters s b :
  Run.counters_ok s ->
  (forall r s', parse_byte s b = Ok (r, s') -> Run.counters_ok s')
  /\ (forall e s', parse_byte s b = Raise e s' -> Run.counters_ok s').
Proof.
  intros [Hn He]. unfold parse_byte.
  destruct (esc_sequence s) eqn:Es; cbn [negb].
  - destruct (He eq_refl) as [Hk Hl].
    destruct (Z.eqb_spec (esc_count s - 1) 0) as [E0 | E0].
    + destruct (escape_code_idle s (data s ++ [b]) (esc_count s - 1))
        as [Hok Hraise].
      split; intros ? s' H.
      * apply Hok in H. destruct H as [H1 H2].
        split; intros H'; [lia | congruence].
      * apply Hraise in H. destruct H as [H1 H2].
        split; intros H'; [lia | congruence].
    + split; intros ? s' H; [| discriminate]. simplify_eq.
      split; cbn; intros H'; [discriminate |].
      rewrite length_app. cbn [length]. lia.
  - specialize (Hn eq_refl).
    split; intros ? s' H; [| repeat case_match; discriminate].
    destruct (Bytes.eqb b x1b).
    + destruct (Z.eqb_spec (esc_count s + 1) 4) as [E4 | E4]; simplify_eq;
        split; cbn; intros H'; try discriminate;
        rewrite length_app; cbn [length]; lia.
    + simplify_eq. split; cbn; intros H'; [lia | discriminate].
Qed.

Lemma reachable_counters s : Run.reachable s -> Run.counters_ok s.
Proof.
  induction 1 as [| s b r s' _ IH H | s b e s' _ IH H].
  - split; cbn; intros H; [lia | discriminate].
  - now apply (proj1 (parse_byte_counters s b IH) r s').
  - now apply (proj2 (parse_byte_counters s b IH) e s').
Qed.

(** What a run of calls that all returned leads to is reachable. *)
Lemma feed_reachable (bytes : list byte) :
  forall s rs s',
    Run.reachable s -> feed s bytes = Ok (rs, s') -> Run.reachable s'.
Proof.
  induction bytes as [| b rest IH]; intros s rs s' Hr H; cbn [feed] in H.
  - now simplify_eq.
  - destruct (parse_byte s b) as [[r s1] | |] eqn:E1; cbn [bind] in H;
      try discriminate.
    destruct (feed s1 rest) as [[rs2 s2] | |] eqn:E2; cbn [bind] in H;
      try discriminate.
    simplify_eq. apply (IH s1 rs2 s' (Run.reach_return s b r s1 Hr E1) E2).
Qed.

Lemma split_last3 (l : list byte) :
  (3 <= length l)%nat -> exists pre a b c, l = pre ++ [a; b; c].
Proof.
  intros H. pose proof (firstn_skipn (length l - 3) l) as E.
  pose proof (length_skipn (length l - 3) l) as Hlen.
  destruct (skipn (length l - 3) l) as [| a [| b [| c [| x t]]]];
    cbn [length] in Hlen; try lia.
  exists (firstn (length l - 3) l), a, b, c. now symmetry.
Qed.

(** [escape_code] raises only in one place: on an end code, with a message
    started and a checksum that matches, when the decoder raises on the
    payload. *)
Lemma escape_code_raise s pre (a pp c1 c2 : byte) k e s' :
  escape_code s (pre ++ [a; pp; c1; c2]) k = Raise e s' ->
  a = x1a
  /\ message_started s = true
  /\ Crc.crc (pre ++ [x1a; pp]) = Some (Bytes.to_Z c2 * 256 + Bytes.to_Z c1)
  /\ exists left,
      Tlv.parse "smlFile" (-1)
        (Py.slice_to (- (8 + Bytes.to_Z pp))
           (Py.slice_from 8 (pre ++ [a; pp; c1; c2])))
      = Raise e left
      /\ e <> SmlException
      /\ s' = MkSml (sml_file s) left false k false.
Proof.
  unfold escape_code.
  assert (E4 : Py.slice_from (-4) (pre ++ [a; pp; c1; c2]) = [a; pp; c1; c2])
    by (now apply (slice_from_neg_app _ _ 4)).
  rewrite E4. change (Py.slice 0 1 [a; pp; c1; c2]) with [a].
  destruct (Bytes.bytes_eqb [a; pp; c1; c2] [x1b; x1b; x1b; x1b]);
    [discriminate |].
  destruct (Bytes.bytes_eqb [a; pp; c1; c2] [x01; x01; x01; x01]);
    [discriminate |].
  destruct (Bytes.bytes_eqb [a] [x02]); [discriminate |].
  destruct (Bytes.bytes_eqb [a] [x03]); [discriminate |].
  destruct (Bytes.bytes_eqb [a] [x04]); [discriminate |].
  destruct (Bytes.bytes_eqb [a] [x1a]) eqn:Ea; [| discriminate].
  assert (Ha : a = x1a).
  { cbn [Bytes.bytes_eqb] in Ea. rewrite andb_true_r in Ea.
    now apply Byte.byte_dec_bl. }
  subst a. unfold end_of_message.
  destruct (message_started s); [| discriminate].
  change (Py.getitem [x1a; pp; c1; c2] 1) with (Some pp).
  cbv iota beta zeta. rewrite crc_msg_end_code.
  assert (E2 : Py.slice_to (-2) (pre ++ [x1a; pp; c1; c2])
               = pre ++ [x1a; pp]).
  { change (pre ++ [x1a; pp; c1; c2]) with (pre ++ [x1a; pp] ++ [c1; c2]).
    rewrite app_assoc. now apply (slice_to_neg_app _ _ 2). }
  rewrite E2, crc_value.
  destruct (Z.eqb_spec (Crc.crc_slow (pre ++ [x1a; pp]))
                       (Bytes.to_Z c2 * 256 + Bytes.to_Z c1)) as [Eq | Ne];
    [| discriminate].
  unfold decode. intros H.
  destruct (Tlv.parse _ _ _) as [[v d] | ex left |] eqn:Ep;
    try discriminate.
  destruct ex; try discriminate; simplify_eq;
    (split; [reflexivity |]; split; [reflexivity |];
     split; [now rewrite Eq |];
     exists left; split; [reflexivity |];
     split; [discriminate | reflexivity]).
Qed.

End Reachable.

(** X4: in every state an instance can reach from [__init__] through calls
    of [parse_byte] (also calls that raised), the escape counter is between 0
    and 3 outside an escape code, where it is at most the length of the
    buffer, and between 1 and 4 inside one, where the
    buffer already holds the four escape bytes and the bytes of the code read
    so far. *)
Theorem reachable_counters_bounded (s : Frame.Sml) :
  Run.reachable s ->
  (Frame.esc_sequence s = false ->
   0 <= Frame.esc_count s <= 3
   /\ Frame.esc_count s <= Z.of_nat (length (Frame.data s)))
  /\ (Frame.esc_sequence s = true ->
      1 <= Frame.esc_count s <= 4
      /\ 8 - Frame.esc_count s <= Z.of_nat (length (Frame.data s))).
Proof. intros H. exact (reachable_counters s H). Qed.

Lemma reachable_counters_bounded_witness :
  Run.reachable (Frame.MkSml (VList []) [x1b; x1b; x1b; x1b] true 4 false)
  /\ 1 <= 4 <= 4
  /\ 8 - 4 <= Z.of_nat (length [x1b; x1b; x1b; x1b]).
Proof.
  assert (R : Run.reachable
                (Frame.MkSml (VList []) [x1b; x1b; x1b; x1b] true 4 false)).
  { apply (feed_reachable [x1b; x1b; x1b; x1b] Frame.init
             (repeat false 4) _ Run.reach_init).
    reflexivity. }
  split; [exact R |].
  exact (proj2 (reachable_counters_bounded _ R) eq_refl).
Defined.

(** X5: when a call of [parse_byte] on a reachable state raises, the call
    completed an end code [1a pp c1 b] while a message was started, the
    checksum of all buffered bytes but the last two matched [b * 256 + c1],
    and the exception is the one the decoder raised on the payload, the
    buffer without its first 8 and its last [8 + pp] bytes; it is never
    [SmlException], the only one that [parse_byte] catches; the slice
    [data[-4:]], the indexing [esc[1]] and the table look-ups of [crc] never
    raise.  The instance is left outside an escape code, with no message
    started, the old [sml_file], and the buffer as the decoder left it. *)
Theorem parse_byte_raises_only_from_decoder :
  forall (s s' : Frame.Sml) (b : byte) (e : exn),
    Run.reachable s ->
    Frame.parse_byte s b = Raise e s' ->
    Frame.esc_sequence s = true
    /\ Frame.esc_count s = 1
    /\ Frame.message_started s = true
    /\ exists (pre : list byte) (pp c1 : byte) (left : list byte),
        Frame.data s = pre ++ [x1a; pp; c1]
        /\ Crc.crc (pre ++ [x1a; pp])
           = Some (Bytes.to_Z b * 256 + Bytes.to_Z c1)
        /\ Tlv.parse "smlFile" (-1)
             (Py.slice_to (- (8 + Bytes.to_Z pp))
                (Py.slice_from 8 (Frame.data s ++ [b])))
           = Raise e left
        /\ e <> SmlException
        /\ s' = Frame.MkSml (Frame.sml_file s) left false 0 false.
Proof.
  intros s s' b e Hr H.
  destruct (reachable_counters s Hr) as [Hn He].
  unfold Frame.parse_byte in H.
  destruct (Frame.esc_sequence s) eqn:Es; cbn [negb] in H;
    [| repeat case_match; discriminate].
  destruct (He eq_refl) as [Hk Hl].
  destruct (Z.eqb_spec (Frame.esc_count s - 1) 0) as [E0 | E0];
    [| discriminate].
  rewrite E0 in H.
  destruct (split_last3 (Frame.data s)) as (pre & a & pp & c1 & Hd); [lia |].
  rewrite Hd in H |- *.
  replace ((pre ++ [a; pp; c1]) ++ [b]) with (pre ++ [a; pp; c1; b]) in *
    by (now rewrite <- app_assoc).
  apply escape_code_raise in H.
  destruct H as (-> & Hst & Hcrc & left & Hp & Hne & ->).
  split; [reflexivity |]. split; [lia |]. split; [exact Hst |].
  now exists pre, pp, c1, left.
Qed.

Lemma parse_byte_raises_only_from_decoder_witness :
  Run.reachable
    (Frame.MkSml (VList [])
       (Wire.start_marker ++ Wire.escape ++ [x1a; x00; xc6]) true 1 true)
  /\ Frame.parse_byte
       (Frame.MkSml (VList [])
          (Wire.start_marker ++ Wire.escape ++ [x1a; x00; xc6]) true 1 true)
       xe5
     = Raise UnboundLocalError (Frame.MkSml (VList []) [] false 0 false)
  /\ exists (pre : list byte) (pp c1 : byte) (left : list byte),
      Wire.start_marker ++ Wire.escape ++ [x1a; x00; xc6]
      = pre ++ [x1a; pp; c1]
      /\ Crc.crc (pre ++ [x1a; pp])
         = Some (Bytes.to_Z xe5 * 256 + Bytes.to_Z c1)
      /\ Tlv.parse "smlFile" (-1)
           (Py.slice_to (- (8 + Bytes.to_Z pp))
              (Py.slice_from 8
                 ((Wire.start_marker ++ Wire.escape ++ [x1a; x00; xc6])
                    ++ [xe5])))
         = Raise UnboundLocalError left
      /\ UnboundLocalError <> SmlException
      /\ Frame.MkSml (VList []) [] false 0 false
         = Frame.MkSml (VList []) left false 0 false.
Proof.
  assert (R : Run.reachable
                (Frame.MkSml (VList [])
                   (Wire.start_marker ++ Wire.escape ++ [x1a; x00; xc6])
                   true 1 true)).
  { apply (feed_reachable
             (Wire.start_marker ++ Wire.escape ++ [x1a; x00; xc6])
             Frame.init (repeat false 15) _ Run.reach_init).
    reflexivity. }
  split; [exact R |]. split; [reflexivity |].
  exact (proj2 (proj2 (proj2
           (parse_byte_raises_only_from_decoder _ _ xe5 UnboundLocalError
              R eq_refl)))).
Defined.

(** ** Frame assembler: escape codes that are not start or end *)

Section OtherCodes.
Import Frame Wire.

(** A code that [escape_code] does not act on: four escape bytes, or a first
    byte [02], [03] or [04]. *)
Lemma escape_code_ignored file d0 d st (a x y z : byte) :
  [a; x; y; z] = escape \/ a = x02 \/ a = x03 \/ a = x04 ->
  escape_code (MkSml file d0 true 1 st) (d ++ [a; x; y; z]) 0
  = Ok (false, MkSml file (d ++ [a; x; y; z]) false 0 st).
Proof.
  intros H. unfold escape_code.
  assert (E4 : Py.slice_from (-4) (d ++ [a; x; y; z]) = [a; x; y; z])
    by (now apply (slice_from_neg_app _ _ 4)).
  rewrite E4.
  destruct H as [H | [-> | [-> | ->]]]; [injection H as -> -> -> -> | | |];
    reflexivity.
Qed.

Lemma feed_ignored_code file d st (a x y z : byte) :
  [a; x; y; z] = escape \/ a = x02 \/ a = x03 \/ a = x04 ->
  feed (MkSml file d false 0 st) (escape ++ [a; x; y; z])
  = Ok (repeat false 8, MkSml file (d ++ escape ++ [a; x; y; z]) false 0 st).
Proof.
  intros H. rewrite feed_app, feed_escape. cbn [bind].
  change [a; x; y; z] with ([a; x; y] ++ [z]).
  rewrite feed_app, feed_code3. cbn [bind feed].
  rewrite parse_byte_code.
  replace (((d ++ escape) ++ [a; x; y]) ++ [z])
    with ((d ++ escape) ++ [a; x; y; z]) by (now rewrite <- !app_assoc).
  rewrite escape_code_ignored by exact H. cbn [bind].
  now rewrite <- !app_assoc.
Qed.

End OtherCodes.

(** X6: an escaped escape sequence (eight bytes [1b]) and the escape codes
    that start with [02], [03] or [04] change nothing but the buffer: every
    call returns [False], the eight bytes stay in the buffer as they are (an
    escaped escape sequence is not reduced to four bytes), [message_started]
    and [sml_file] are kept, and the instance is outside an escape code
    again. *)
Theorem other_escape_codes_are_kept :
  forall (file : value) (d : list byte) (st : bool) (a x y z : byte),
    [a; x; y; z] = Wire.escape \/ a = x02 \/ a = x03 \/ a = x04 ->
    Frame.feed (Frame.MkSml file d false 0 st) (Wire.escape ++ [a; x; y; z])
    = Ok (repeat false 8,
          Frame.MkSml file (d ++ Wire.escape ++ [a; x; y; z]) false 0 st).
Proof. intros file d st a x y z H. now apply feed_ignored_code. Qed.

Lemma other_escape_codes_are_kept_witness :
  ([x1b; x1b; x1b; x1b] = Wire.escape \/ x1b = x02 \/ x1b = x03 \/ x1b = x04)
  /\ Frame.feed (Frame.MkSml (VList []) Wire.start_marker false 0 true)
                (Wire.escape ++ [x1b; x1b; x1b; x1b])
     = Ok (repeat false 8,
           Frame.MkSml (VList [])
             (Wire.start_marker ++ Wire.escape ++ [x1b; x1b; x1b; x1b])
             false 0 true).
Proof.
  split; [now left |].
  apply (other_escape_codes_are_kept (VList []) Wire.start_marker true
           x1b x1b x1b x1b).
  now left.
Defined.

(** ** Frame assembler: an end code without a started message *)

(** X7: when the last byte of an end code [1a pp c1 c2] arrives and no
    message is started, [parse_byte] returns [False] whatever the checksum
    bytes are: nothing is compared or decoded, [sml_file] is kept, and the
    buffer keeps all its bytes. *)
Theorem end_code_without_start_is_ignored :
  forall (s : Frame.Sml) (pre : list byte) (pp c1 c2 : byte),
    Frame.esc_sequence s = true ->
    Frame.esc_count s = 1 ->
    Frame.message_started s = false ->
    Frame.data s = pre ++ [x1a; pp; c1] ->
    Frame.parse_byte s c2
    = Ok (false,
          Frame.MkSml (Frame.sml_file s) (pre ++ [x1a; pp; c1; c2])
                      false 0 false).
Proof.
  intros [file d es ec st] pre pp c1 c2.
  cbn [Frame.esc_sequence Frame.esc_count Frame.message_started Frame.data
       Frame.sml_file].
  intros -> -> -> ->. rewrite parse_byte_code.
  replace ((pre ++ [x1a; pp; c1]) ++ [c2]) with (pre ++ [x1a; pp; c1; c2])
    by (now rewrite <- app_assoc).
  unfold Frame.escape_code.
  assert (E4 : Py.slice_from (-4) (pre ++ [x1a; pp; c1; c2])
               = [x1a; pp; c1; c2])
    by (now apply (slice_from_neg_app _ _ 4)).
  rewrite E4. reflexivity.
Qed.

Lemma end_code_without_start_is_ignored_witness :
  Frame.esc_sequence
    (Frame.MkSml (VList []) (Wire.escape ++ [x1a; x00; xc6]) true 1 false)
  = true
  /\ Frame.esc_count
       (Frame.MkSml (VList []) (Wire.escape ++ [x1a; x00; xc6]) true 1 false)
     = 1
  /\ Frame.message_started
       (Frame.MkSml (VList []) (Wire.escape ++ [x1a; x00; xc6]) true 1 false)
     = false
  /\ Frame.parse_byte
       (Frame.MkSml (VList []) (Wire.escape ++ [x1a; x00; xc6]) true 1 false)
       xe5
     = Ok (false,
           Frame.MkSml (VList []) (Wire.escape ++ [x1a; x00; xc6; xe5])
                       false 0 false).
Proof.
  repeat (split; [reflexivity |]).
  apply (end_code_without_start_is_ignored
           (Frame.MkSml (VList []) (Wire.escape ++ [x1a; x00; xc6])
                        true 1 false)
           Wire.escape x00 xc6 xe5); reflexivity.
Defined.

(** ** Frame assembler: bytes before a frame, and frames in a row *)

(** X8: bytes received before a frame do no harm: when they hold no escape
    run, the start marker drops them from the buffer, and the frame after
    them is answered and decoded as if it came first; its checksum covers the
    frame only. *)
Theorem bytes_before_frame_are_dropped :
  forall (garbage payload pad : list byte) (pp c1 c2 : byte) (v : value)
         (rest : list byte),
    Wire.escape_free 0 garbage = true ->
    Z.of_nat (length pad) = Bytes.to_Z pp ->
    Wire.escape_free 0 (payload ++ pad) = true ->
    Crc.crc (Wire.checked (payload ++ pad) pp)
    = Some (Bytes.to_Z c2 * 256 + Bytes.to_Z c1) ->
    Tlv.parse "smlFile" (-1) payload = Ok (v, rest) ->
    Frame.feed Frame.init (garbage ++ Wire.frame (payload ++ pad) pp c1 c2)
    = Ok (repeat false (length garbage)
            ++ repeat false (length (Wire.frame (payload ++ pad) pp c1 c2) - 1)
            ++ [true],
          Frame.MkSml v rest false 0 false).
Proof.
  intros garbage payload pad pp c1 c2 v rest Hg Hpad Hfree Hcrc Hparse.
  rewrite feed_app. unfold Frame.init at 1.
  change 0 with (Z.of_nat 0) at 1.
  rewrite (feed_body garbage (VList []) [] 0%nat false) by (lia || assumption).
  cbn [bind].
  rewrite (feed_frame _ payload pad pp c1 c2 v rest)
    by (reflexivity || assumption).
  reflexivity.
Qed.

Lemma bytes_before_frame_are_dropped_witness :
  Wire.escape_free 0 [xaa; x1b; x55] = true
  /\ Z.of_nat (length [x00; x00; x00]) = Bytes.to_Z x03
  /\ Wire.escape_free 0 ([x00] ++ [x00; x00; x00]) = true
  /\ Crc.crc (Wire.checked ([x00] ++ [x00; x00; x00]) x03)
     = Some (Bytes.to_Z x18 * 256 + Bytes.to_Z xef)
  /\ Tlv.parse "smlFile" (-1) [x00] = Ok (VList [VBytes [x00]], [])
  /\ Frame.feed Frame.init
       ([xaa; x1b; x55] ++ Wire.frame ([x00] ++ [x00; x00; x00]) x03 xef x18)
     = Ok (repeat false 3 ++ repeat false 19 ++ [true],
           Frame.MkSml (VList [VBytes [x00]]) [] false 0 false).
Proof.
  repeat (split; [reflexivity |]).
  apply (bytes_before_frame_are_dropped [xaa; x1b; x55]
           [x00] [x00; x00; x00] x03 xef x18 (VList [VBytes [x00]]) []);
    reflexivity.
Defined.

(** X9: two frames fed one after the other are each answered by [True] on
    their last byte and by [False] before; after the second one [sml_file]
    holds the second payload decoded, the first one is replaced. *)
Theorem two_frames_in_a_row :
  forall (payload1 pad1 payload2 pad2 : list byte)
         (pp1 c11 c12 pp2 c21 c22 : byte) (v1 v2 : value)
         (rest1 rest2 : list byte),
    Z.of_nat (length pad1) = Bytes.to_Z pp1 ->
    Wire.escape_free 0 (payload1 ++ pad1) = true ->
    Crc.crc (Wire.checked (payload1 ++ pad1) pp1)
    = Some (Bytes.to_Z c12 * 256 + Bytes.to_Z c11) ->
    Tlv.parse "smlFile" (-1) payload1 = Ok (v1, rest1) ->
    Z.of_nat (length pad2) = Bytes.to_Z pp2 ->
    Wire.escape_free 0 (payload2 ++ pad2) = true ->
    Crc.crc (Wire.checked (payload2 ++ pad2) pp2)
    = Some (Bytes.to_Z c22 * 256 + Bytes.to_Z c21) ->
    Tlv.parse "smlFile" (-1) payload2 = Ok (v2, rest2) ->
    Frame.feed Frame.init
      (Wire.frame (payload1 ++ pad1) pp1 c11 c12
         ++ Wire.frame (payload2 ++ pad2) pp2 c21 c22)
    = Ok ((repeat false
             (length (Wire.frame (payload1 ++ pad1) pp1 c11 c12) - 1)
             ++ [true])
            ++ repeat false
                 (length (Wire.frame (payload2 ++ pad2) pp2 c21 c22) - 1)
            ++ [true],
          Frame.MkSml v2 rest2 false 0 false).
Proof.
  intros payload1 pad1 payload2 pad2 pp1 c11 c12 pp2 c21 c22 v1 v2
         rest1 rest2 Hp1 Hf1 Hc1 Hd1 Hp2 Hf2 Hc2 Hd2.
  rewrite feed_app.
  rewrite (feed_frame Frame.init payload1 pad1 pp1 c11 c12 v1 rest1)
    by (reflexivity || assumption).
  cbn [bind].
  rewrite (feed_frame _ payload2 pad2 pp2 c21 c22 v2 rest2)
    by (reflexivity || assumption).
  reflexivity.
Qed.

Lemma two_frames_in_a_row_witness :
  Z.of_nat (length [x00; x00; x00]) = Bytes.to_Z x03
  /\ Wire.escape_free 0 ([x00] ++ [x00; x00; x00]) = true
  /\ Crc.crc (Wire.checked ([x00] ++ [x00; x00; x00]) x03)
     = Some (Bytes.to_Z x18 * 256 + Bytes.to_Z xef)
  /\ Tlv.parse "smlFile" (-1) [x00] = Ok (VList [VBytes [x00]], [])
  /\ Frame.feed Frame.init
       (Wire.frame ([x00] ++ [x00; x00; x00]) x03 xef x18
          ++ Wire.frame ([x00] ++ [x00; x00; x00]) x03 xef x18)
     = Ok ((repeat false 19 ++ [true]) ++ repeat false 19 ++ [true],
           Frame.MkSml (VList [VBytes [x00]]) [] false 0 false).
Proof.
  repeat (split; [reflexivity |]).
  apply (two_frames_in_a_row [x00] [x00; x00; x00] [x00] [x00; x00; x00]
           x03 xef x18 x03 xef x18
           (VList [VBytes [x00]]) (VList [VBytes [x00]]) [] []);
    reflexivity.
Defined.

(** ** TLV decoder: the type-length field *)

Section TypeLength.
Import Tlv.

Lemma read_tl_more_spec (d : list byte) :
  forall tl tl_len tl_bytes tl' tl_len' tl_bytes' rest,
    read_tl_more d tl tl_len tl_bytes = Ok (tl', tl_len', tl_bytes', rest) ->
    0 <= tl_len ->
    exists k : nat,
      tl_bytes' = tl_bytes + Z.of_nat k
      /\ skipn k d = rest
      /\ (k <= length d)%nat
      /\ Z.land tl' 0x80 = 0
      /\ 0 <= tl_len'
      /\ (Z.land tl 0x80 = 0 -> k = 0%nat /\ tl' = tl /\ tl_len' = tl_len).
Proof.
  induction d as [| b d IH];
    intros tl tl_len tl_bytes tl' tl_len' tl_bytes' rest H Hlen;
    cbn [read_tl_more] in H;
    destruct (Z.eqb_spec (Z.land tl 128) 0) as [E | E]; cbn [negb] in H;
    try discriminate.
  - simplify_eq. exists 0%nat. repeat split; try lia; assumption.
  - simplify_eq. exists 0%nat. repeat split; try lia; assumption.
  - apply IH in H.
    + destruct H as (k & Hb & Hs & Hk & Ht & Hl & _).
      exists (S k). cbn [skipn length].
      repeat split; try lia; try assumption.
    + destruct (Z.land (Bytes.to_Z b) 112 =? 0); [| exact Hlen].
      assert (0 <= Z.shiftl tl_len 4) by (apply Z.shiftl_nonneg; lia).
      assert (0 <= Z.land (Bytes.to_Z b) 15)
        by (apply Z.land_nonneg; right; lia).
      lia.
Qed.

Lemma read_tl_spec (d : list byte) tl tl_typ tl_len tl_bytes rest :
  read_tl d = Ok (tl, tl_typ, tl_len, tl_bytes, rest) ->
  exists (b : byte) (d' : list byte) (k : nat),
    d = b :: d'
    /\ tl_typ = Z.land (Bytes.to_Z b) 0x70
    /\ tl_bytes = 1 + Z.of_nat k
    /\ skipn (S k) d = rest
    /\ (S k <= length d)%nat
    /\ Z.land tl 0x80 = 0
    /\ 0 <= tl_len
    /\ (Z.land (Bytes.to_Z b) 0x80 = 0 ->
        k = 0%nat /\ tl = Bytes.to_Z b
        /\ tl_len = Z.land (Bytes.to_Z b) 0x0F).
Proof.
  destruct d as [| b d']; [discriminate |]. unfold read_tl.
  destruct (read_tl_more _ _ _ _) as [[[[t l] n] r] | |] eqn:E;
    cbn [bind]; try discriminate.
  intros H. simplify_eq.
  apply read_tl_more_spec in E; [| apply Z.land_nonneg; right; lia].
  destruct E as (k & Hb & Hs & Hk & Ht & Hl & H0).
  exists b, d', k. cbn [skipn length].
  repeat split; try lia; try assumption; now apply H0.
Qed.

End TypeLength.

(** X10: when the type-length field of an element is read, its type is the
    bits [0x70] of the first byte, the last byte read has no continuation
    bit, the length is not negative, and [tl_bytes] counts exactly the bytes
    taken from the buffer, at least one.  A first byte without continuation
    bit is the whole field: its low four bits are the length. *)
Theorem type_length_field_consumption :
  forall (d rest : list byte) (tl tl_typ tl_len tl_bytes : Z),
    Tlv.read_tl d = Ok (tl, tl_typ, tl_len, tl_bytes, rest) ->
    1 <= tl_bytes <= Z.of_nat (length d)
    /\ skipn (Z.to_nat tl_bytes) d = rest
    /\ Z.land tl 0x80 = 0
    /\ 0 <= tl_len
    /\ exists (b : byte) (d' : list byte),
        d = b :: d'
        /\ tl_typ = Z.land (Bytes.to_Z b) 0x70
        /\ (Z.land (Bytes.to_Z b) 0x80 = 0 ->
            tl = Bytes.to_Z b /\ tl_bytes = 1
            /\ tl_len = Z.land (Bytes.to_Z b) 0x0F /\ rest = d').
Proof.
  intros d rest tl tl_typ tl_len tl_bytes H.
  apply read_tl_spec in H.
  destruct H as (b & d' & k & Hd & Ht & Hb & Hs & Hk & Hc & Hl & H0).
  subst tl_bytes. replace (Z.to_nat (1 + Z.of_nat k)) with (S k) by lia.
  repeat split; try lia; try assumption.
  exists b, d'. repeat split; try assumption.
  - now apply H0.
  - destruct (H0 H) as [-> _]. reflexivity.
  - now apply H0.
  - destruct (H0 H) as [-> _]. subst d rest. reflexivity.
Qed.

Lemma type_length_field_consumption_witness :
  Tlv.read_tl [x81; x05; xaa] = Ok (0x05, 0x00, 0x15, 2, [xaa])
  /\ 1 <= 2 <= Z.of_nat (length [x81; x05; xaa])
  /\ skipn (Z.to_nat 2) [x81; x05; xaa] = [xaa].
Proof.
  split; [reflexivity |].
  destruct (type_length_field_consumption [x81; x05; xaa] [xaa]
              0x05 0x00 0x15 2 eq_refl) as (H1 & H2 & _).
  exact (conj H1 H2).
Defined.

(** ** TLV decoder: termination and the buffer that is left *)

Section Suffix.
Import Tlv.

Lemma parse_item_suffix rec struct f f' :
  (forall e n d v d', rec e n d = Ok (v, d') -> exists u, d = u ++ d') ->
  parse_item rec struct f = Ok f' ->
  exists used, data f = used ++ data f'.
Proof.
  intros Hrec. unfold parse_item.
  destruct (resolve _ _ _ _) as [[et elem] | |]; cbn [bind]; try discriminate.
  destruct (read_tl _) as [[[[[tl tl_typ] tl_len] tl_bytes] d1] | |] eqn:Hrd;
    cbn [bind]; try discriminate.
  apply read_tl_spec in Hrd.
  destruct Hrd as (b & d' & k & Hd & _ & _ & Hs & _).
  assert (H1 : data f = firstn (S k) (data f) ++ d1)
    by (rewrite <- Hs; symmetry; apply firstn_skipn).
  clear Hs Hd.
  pose proof (slice_to_from (tl_len - tl_bytes) d1) as Hsl.
  unfold pop_data. intros Hfin.
  repeat case_match; cbn [bind] in *; simplify_eq;
    rewrite ?store_data; cbn [data];
    try (exists (firstn (S k) (data f)); exact H1);
    try (exists (firstn (S k) (data f)
                   ++ Py.slice_to (tl_len - tl_bytes) d1);
         rewrite <- app_assoc, Hsl; exact H1).
  destruct (rec elem tl_len d1) as [[v d2] | |] eqn:E;
    cbn [bind] in Hfin; simplify_eq.
  apply Hrec in E. destruct E as [u E]. rewrite store_data.
  exists (firstn (S k) (data f) ++ u). rewrite <- app_assoc, <- E. exact H1.
Qed.

Lemma parse_loop_suffix (fuel : nat) :
  forall struct f v d,
    parse_loop fuel struct f = Ok (v, d) -> exists used, data f = used ++ d.
Proof.
  induction fuel as [| fuel IH]; intros struct f v d H; [discriminate |].
  rewrite parse_loop_S in H. destruct (parse_continue f).
  - destruct (parse_item _ struct f) as [f' | |] eqn:E;
      cbn [bind] in H; try discriminate.
    apply parse_item_suffix in E.
    + apply IH in H. destruct E as [u1 E], H as [u2 H].
      exists (u1 ++ u2). now rewrite <- app_assoc, <- H.
    + intros e n d0 v0 d0' H0. now apply IH in H0.
  - apply parse_return_length in H. subst d. now exists [].
Qed.

End Suffix.

(** X11: [parse] terminates on every buffer, for every node name and budget
    (it returns or raises; the recursion never runs away), and when it
    returns, the buffer it leaves is what remains of the buffer it was given
    after a prefix was taken away: bytes are only popped from the front. *)
Theorem parse_terminates_and_pops_a_prefix :
  forall (struct : string) (elements : Z) (d : list byte),
    Tlv.parse struct elements d <> OutOfFuel
    /\ (forall v rest,
           Tlv.parse struct elements d = Ok (v, rest) ->
           exists used, d = used ++ rest).
Proof.
  intros struct elements d. split; [apply parse_total |].
  intros v rest H. unfold Tlv.parse in H.
  apply parse_loop_suffix in H. exact H.
Qed.

Lemma parse_terminates_and_pops_a_prefix_witness :
  Tlv.parse "secIndex" 1 [x62; x05; xaa]
  = Ok (VDict {[ "secIndex"%string := VInt 5 ]}, [xaa])
  /\ exists used, [x62; x05; xaa] = used ++ [xaa].
Proof.
  split; [vm_compute; reflexivity |].
  apply (proj2 (parse_terminates_and_pops_a_prefix "secIndex" 1
                  [x62; x05; xaa])
               (VDict {[ "secIndex"%string := VInt 5 ]})).
  vm_compute. reflexivity.
Defined.

(** ** TLV decoder: the exceptions it can raise *)

Section NoSmlException.
Import Schema Tlv.

(** Every entry of the schema is a list or a struct. *)
Lemma schema_has_no_other_type (struct : string) :
  sml_struct !! struct <> Some NOther.
Proof.
  intros H. unfold sml_struct in H.
  apply elem_of_list_to_map_2 in H.
  repeat (apply elem_of_cons in H; destruct H as [H | H]; [discriminate |]).
  now apply elem_of_nil in H.
Qed.

Lemma resolve_no_sml_exception struct els dict d left :
  resolve struct els dict d <> Raise SmlException left.
Proof.
  unfold resolve. pose proof (schema_has_no_other_type struct) as Hs.
  repeat case_match; try discriminate. contradiction.
Qed.

Lemma read_tl_more_no_sml_exception (d : list byte) :
  forall tl tl_len tl_bytes left,
    read_tl_more d tl tl_len tl_bytes <> Raise SmlException left.
Proof.
  induction d as [| b d IH]; intros tl tl_len tl_bytes left;
    cbn [read_tl_more]; destruct (negb (Z.land tl 128 =? 0));
    try discriminate.
  apply IH.
Qed.

Lemma read_tl_no_sml_exception (d : list byte) left :
  read_tl d <> Raise SmlException left.
Proof.
  destruct d as [| b d]; [discriminate |]. unfold read_tl.
  destruct (read_tl_more _ _ _ _) as [[[[t l] n] r] | e s |] eqn:E;
    cbn [bind]; try discriminate.
  intros H. simplify_eq. now apply read_tl_more_no_sml_exception in E.
Qed.

Lemma parse_item_no_sml_exception rec struct f left :
  (forall e n d l, rec e n d <> Raise SmlException l) ->
  parse_item rec struct f <> Raise SmlException left.
Proof.
  intros Hrec. unfold parse_item.
  destruct (resolve _ _ _ _) as [[et elem] | e s |] eqn:Hres; cbn [bind];
    try discriminate.
  - destruct (read_tl _) as [[[[[tl tl_typ] tl_len] tl_bytes] d1] | e s |]
      eqn:Hrd; cbn [bind]; try discriminate.
    + unfold pop_data. intros Hfin. repeat case_match; try discriminate.
      destruct (rec elem tl_len d1) as [[v d2] | e s |] eqn:E;
        cbn [bind] in Hfin; try discriminate.
      simplify_eq. now apply Hrec in E.
    + intros Hfin. simplify_eq. now apply read_tl_no_sml_exception in Hrd.
  - intros Hfin. simplify_eq. now apply resolve_no_sml_exception in Hres.
Qed.

Lemma parse_loop_no_sml_exception (fuel : nat) :
  forall struct f left, parse_loop fuel struct f <> Raise SmlException left.
Proof.
  induction fuel as [| fuel IH]; intros struct f left; [discriminate |].
  rewrite parse_loop_S. destruct (parse_continue f).
  - destruct (parse_item _ struct f) as [f' | e s |] eqn:E; cbn [bind];
      try discriminate.
    + apply IH.
    + intros H. simplify_eq. revert E. apply parse_item_no_sml_exception.
      intros e n d l. apply IH.
  - unfold parse_return. repeat case_match; discriminate.
Qed.

End NoSmlException.

(** X12: [parse] never raises [SmlException], for any node name, budget and
    buffer: every entry of the schema is a list or a struct, so the
    statement [raise SmlException('Unknown element type')] is never reached.
    Hence the handler [except SmlException] of [parse_byte] never runs:
    whatever the decoder raises leaves [parse_byte]. *)
Theorem parse_never_raises_sml_exception :
  (forall struct : string,
      Schema.sml_struct !! struct <> Some Schema.NOther)
  /\ (forall (struct : string) (elements : Z) (d left : list byte),
         Tlv.parse struct elements d <> Raise SmlException left)
  /\ (forall (s : Frame.Sml) (payload : list byte) (k : Z),
         Frame.decode s payload k
         = match Tlv.parse "smlFile" (-1) payload with
           | Ok (v, d) => Ok (true, Frame.MkSml v d false k false)
           | Raise e d =>
               Raise e (Frame.MkSml (Frame.sml_file s) d false k false)
           | OutOfFuel => OutOfFuel
           end).
Proof.
  split; [exact schema_has_no_other_type |]. split.
  - intros struct elements d left. apply parse_loop_no_sml_exception.
  - intros s payload k. unfold Frame.decode.
    destruct (Tlv.parse "smlFile" (-1) payload) as [[v d] | e d |] eqn:E;
      try reflexivity.
    destruct e; try reflexivity.
    exfalso. revert E. apply parse_loop_no_sml_exception.
Qed.

(** ** Frame assembler: what a call that returns [True] leaves *)

Section FrameReady.
Import Schema Tlv.

Lemma resolve_smlFile els dict d :
  resolve "smlFile" els dict d = Ok (EList, "smlMessage"%string).
Proof. reflexivity. Qed.

Lemma parse_item_smlFile rec f f' :
  parse_item rec "smlFile" f = Ok f' ->
  elements f' <= elements f /\ etyp f' = Some EList.
Proof.
  unfold parse_item. rewrite resolve_smlFile. cbn [bind].
  destruct (read_tl _) as [[[[[tl tl_typ] tl_len] tl_bytes] d1] | |];
    cbn [bind]; try discriminate.
  unfold pop_data. intros Hfin.
  repeat case_match;
    try (simplify_eq; destruct f; cbn; split; [lia | reflexivity]).
  destruct (rec "smlMessage"%string tl_len d1) as [[v d2] | |];
    cbn [bind] in Hfin; simplify_eq.
  destruct f; cbn. split; [lia | reflexivity].
Qed.

Lemma parse_loop_smlFile (fuel : nat) :
  forall f v rest,
    elements f < 0 ->
    etyp f <> Some EStruct ->
    parse_loop fuel "smlFile" f = Ok (v, rest) ->
    rest = [] /\ exists l, v = VList l.
Proof.
  induction fuel as [| fuel IH]; intros f v rest Hneg Hty H; [discriminate |].
  rewrite parse_loop_S in H. destruct (parse_continue f) eqn:Hc.
  - destruct (parse_item _ "smlFile" f) as [f' | |] eqn:E;
      cbn [bind] in H; try discriminate.
    apply parse_item_smlFile in E. destruct E as [E1 E2].
    apply (IH f'); [lia | congruence | exact H].
  - unfold parse_continue in Hc. apply andb_false_iff in Hc.
    destruct Hc as [Hc | Hc].
    + apply negb_false_iff, Nat.eqb_eq in Hc.
      unfold parse_return in H.
      destruct (etyp f) as [[|] |]; try discriminate; [| contradiction].
      simplify_eq. split; [| eauto].
      destruct (data f); [reflexivity | discriminate].
    + apply negb_false_iff, Z.eqb_eq in Hc. lia.
Qed.

End FrameReady.

(** X13: whenever [parse_byte] returns [True], a file was decoded by this
    call: [sml_file] is a list, the buffer is empty (the decoder is called
    with the budget [-1], which never reaches 0, and stops only when the
    buffer is used up), no message is started and the instance is outside an
    escape code. *)
Theorem frame_ready_leaves_a_decoded_list :
  forall (s s' : Frame.Sml) (b : byte),
    Frame.parse_byte s b = Ok (true, s') ->
    (exists l, Frame.sml_file s' = VList l)
    /\ Frame.data s' = []
    /\ Frame.message_started s' = false
    /\ Frame.esc_sequence s' = false
    /\ Frame.message_started s = true.
Proof.
  intros s s' b H.
  unfold Frame.parse_byte, Frame.escape_code, Frame.end_of_message,
    Frame.decode in H.
  repeat case_match; simplify_eq.
  - match goal with E : Tlv.parse _ _ _ = Ok _ |- _ =>
      apply parse_loop_smlFile in E; [| cbn; lia | discriminate] end.
    cbn. intuition (subst; eauto).
  - match goal with E : Tlv.parse _ _ _ = Raise SmlException _ |- _ =>
      now apply parse_loop_no_sml_exception in E end.
Qed.

Lemma frame_ready_leaves_a_decoded_list_witness :
  Frame.parse_byte
    (Frame.MkSml (VList [])
       (Wire.start_marker ++ [x00] ++ [x00; x00; x00] ++ Wire.escape
          ++ [x1a; x03; xef])
       true 1 true)
    x18
  = Ok (true, Frame.MkSml (VList [VBytes [x00]]) [] false 0 false)
  /\ (exists l, VList [VBytes [x00]] = VList l)
  /\ @nil byte = [].
Proof.
  split; [reflexivity |].
  destruct (frame_ready_leaves_a_decoded_list
              (Frame.MkSml (VList [])
                 (Wire.start_marker ++ [x00] ++ [x00; x00; x00] ++ Wire.escape
                    ++ [x1a; x03; xef])
                 true 1 true)
              (Frame.MkSml (VList [VBytes [x00]]) [] false 0 false)
              x18 eq_refl) as (H1 & H2 & _).
  exact (conj H1 H2).
Defined.

(** ** TLV decoder: a budget of zero elements *)

Section ZeroBudget.
Import Tlv.

Lemma parse_loop_zero_budget (fuel : nat) struct (d : list byte) :
  parse_loop (S fuel) struct (Frame 0 d [] ∅ None)
  = Raise UnboundLocalError d.
Proof.
  rewrite parse_loop_S. unfold parse_continue. cbn [elements data].
  change (0 =? 0) with true. cbn [negb]. now rewrite andb_false_r.
Qed.

Lemma read_tl_empty_list (rest : list byte) :
  read_tl (x70 :: rest) = Ok (0x70, 0x70, 0, 1, rest).
Proof. destruct rest; reflexivity. Qed.

End ZeroBudget.

(** X14: a budget of zero elements makes [parse] raise [UnboundLocalError]
    on every buffer and for every node name, since the loop body, which binds
    [etyp], does not run; hence an element [70], a list without entries,
    makes the decoder raise whatever follows it: the call made for the empty
    list has the budget 0. *)
Theorem empty_list_element_raises :
  (forall (struct : string) (d : list byte),
      Tlv.parse struct 0 d = Raise UnboundLocalError d)
  /\ (forall rest : list byte,
         Tlv.parse "smlFile" (-1) (x70 :: rest)
         = Raise UnboundLocalError rest).
Proof.
  split.
  - intros struct d. unfold Tlv.parse. apply parse_loop_zero_budget.
  - intros rest. unfold Tlv.parse. cbn [length].
    rewrite parse_loop_S.
    change (Tlv.parse_continue (Tlv.Frame (-1) (x70 :: rest) [] ∅ None))
      with true.
    cbv iota.
    rewrite (parse_item_dispatch _ "smlFile"
               (Tlv.Frame (-1) (x70 :: rest) [] ∅ None)
               Tlv.EList "smlMessage"%string 0x70 0x70 0 1 rest
               eq_refl (read_tl_empty_list rest)).
    cbv zeta. change (0x70 =? 0x00) with false.
    change (0x70 =? 0x40) with false.
    change (0x70 =? 0x50) with false. change (0x70 =? 0x60) with false.
    change (0x70 =? 0x70) with true. cbv iota.
    now rewrite parse_loop_zero_budget.
Qed.

(** ** Discriminant placeholders: the message body *)

Section MessageId.
Import Schema Tlv.

Lemma key_lookup_messageId (dict : gmap string value) (z : Z) :
  dict !! "messageId"%string = Some (VInt z) ->
  key_lookup "messageId" dict
  = if z =? 257 then Some "OpenResponse"%string
    else if z =? 513 then Some "CloseResponse"%string
    else if z =? 1793 then Some "GetListResponse"%string
    else None.
Proof.
  intros Hd. unfold key_lookup. rewrite Hd.
  change (key_names !! "messageId"%string)
    with (Some (list_to_map (M := gmap Z string)
                  [ (257, "OpenResponse"%string);
                    (513, "CloseResponse"%string);
                    (1793, "GetListResponse"%string) ])).
  cbn [int_key].
  destruct (Z.eqb_spec z 257) as [-> | H1]; [reflexivity |].
  destruct (Z.eqb_spec z 513) as [-> | H2]; [reflexivity |].
  destruct (Z.eqb_spec z 1793) as [-> | H3]; [reflexivity |].
  cbn [list_to_map foldr fst snd].
  rewrite !lookup_insert_ne by congruence. apply lookup_empty.
Qed.

End MessageId.

(** X15: at a struct position that holds the placeholder ["[messageId]"],
    the element is decoded under the name [OpenResponse], [CloseResponse] or
    [GetListResponse] when the sibling [messageId] decoded to 257, 513 or
    1793; for any other number, and when [messageId] is missing from the
    dict, the name is [message], the field name without its last two
    characters, which is a schema node: a list of [message], so that a
    message body of an unknown kind is decoded as nested lists. *)
Theorem message_body_resolution :
  forall struct names els (dict : gmap string value) (d : list byte),
    Schema.sml_struct !! struct = Some (Schema.NStruct names) ->
    Py.getitem names (Z.of_nat (length names) - els)
    = Some "[messageId]"%string ->
    (dict !! "messageId"%string = Some (VInt 257) ->
     Tlv.resolve struct els dict d = Ok (Tlv.EStruct, "OpenResponse"%string))
    /\ (dict !! "messageId"%string = Some (VInt 513) ->
        Tlv.resolve struct els dict d
        = Ok (Tlv.EStruct, "CloseResponse"%string))
    /\ (dict !! "messageId"%string = Some (VInt 1793) ->
        Tlv.resolve struct els dict d
        = Ok (Tlv.EStruct, "GetListResponse"%string))
    /\ (forall z, dict !! "messageId"%string = Some (VInt z) ->
                  z <> 257 -> z <> 513 -> z <> 1793 ->
                  Tlv.resolve struct els dict d
                  = Ok (Tlv.EStruct, "message"%string))
    /\ (dict !! "messageId"%string = None ->
        Tlv.resolve struct els dict d = Ok (Tlv.EStruct, "message"%string))
    /\ Schema.sml_struct !! "message"%string
       = Some (Schema.NList "message").
Proof.
  intros struct names els dict d Hs Hn.
  rewrite (resolve_messageId _ _ _ dict d Hs Hn).
  repeat split.
  - intros H. now rewrite (key_lookup_messageId _ _ H).
  - intros H. now rewrite (key_lookup_messageId _ _ H).
  - intros H. now rewrite (key_lookup_messageId _ _ H).
  - intros z H H1 H2 H3. rewrite (key_lookup_messageId _ _ H).
    destruct (Z.eqb_spec z 257); [contradiction |].
    destruct (Z.eqb_spec z 513); [contradiction |].
    destruct (Z.eqb_spec z 1793); [contradiction |]. reflexivity.
  - intros H. unfold Tlv.key_lookup. rewrite H.
    now destruct (Schema.key_names !! "messageId"%string).
Qed.

Lemma message_body_resolution_witness :
  Schema.sml_struct !! "messageBody"%string
  = Some (Schema.NStruct ["messageId"; "[messageId]"]%string)
  /\ Py.getitem ["messageId"; "[messageId]"]%string (2 - 1)
     = Some "[messageId]"%string
  /\ ({[ "messageId"%string := VInt 1793 ]} : gmap string value)
       !! "messageId"%string
     = Some (VInt 1793)
  /\ Tlv.resolve "messageBody" 1 {[ "messageId"%string := VInt 1793 ]} []
     = Ok (Tlv.EStruct, "GetListResponse"%string).
Proof.
  split; [reflexivity |]. split; [reflexivity |]. split; [reflexivity |].
  apply (proj1 (proj2 (proj2 (message_body_resolution "messageBody"%string
                  ["messageId"; "[messageId]"]%string 1
                  {[ "messageId"%string := VInt 1793 ]} []
                  eq_refl eq_refl)))).
  reflexivity.
Defined.

(** ** TLV decoder: the budget of a struct and the field names *)

Section StructBudget.
Import Schema Tlv.

Lemma getitem_out_of_range (names : list string) (els : Z) :
  els <= 0 \/ 2 * Z.of_nat (length names) < els ->
  Py.getitem names (Z.of_nat (length names) - els) = None.
Proof.
  intros H. unfold Py.getitem.
  destruct (Z.ltb_spec (Z.of_nat (length names) - els) 0) as [Hneg | Hpos].
  - destruct (Z.leb_spec (- (Z.of_nat (length names) - els))
                         (Z.of_nat (length names))); [lia | reflexivity].
  - apply nth_error_None. lia.
Qed.

Lemma getitem_in_range (names : list string) (els : Z) :
  0 < els <= Z.of_nat (length names) ->
  Py.getitem names (Z.of_nat (length names) - els)
  = nth_error names (length names - Z.to_nat els).
Proof.
  intros H. unfold Py.getitem.
  destruct (Z.ltb_spec (Z.of_nat (length names) - els) 0); [lia |].
  f_equal. lia.
Qed.

Lemma getitem_wrapped (names : list string) (els : Z) :
  Z.of_nat (length names) < els <= 2 * Z.of_nat (length names) ->
  Py.getitem names (Z.of_nat (length names) - els)
  = nth_error names (2 * length names - Z.to_nat els).
Proof.
  intros H. unfold Py.getitem.
  destruct (Z.ltb_spec (Z.of_nat (length names) - els) 0); [| lia].
  destruct (Z.leb_spec (- (Z.of_nat (length names) - els))
                       (Z.of_nat (length names))); [| lia].
  f_equal. lia.
Qed.

Lemma resolve_plain_name struct names els dict (d : list byte) name :
  sml_struct !! struct = Some (NStruct names) ->
  Py.getitem names (Z.of_nat (length names) - els) = Some name ->
  Py.find "[" name = -1 ->
  resolve struct els dict d = Ok (EStruct, name).
Proof.
  intros Hs Hn Hf. unfold resolve. rewrite Hs, Hn, Hf. reflexivity.
Qed.

End StructBudget.

(** X16: the name of a struct element is taken from the position counted
    from the end of the field list: with [l] fields and a budget [els] left,
    [1 <= els <= l] gives field [l - els]; a budget larger than [l], as a
    struct that announces more elements than the schema has fields gives,
    is not refused: for [l < els <= 2 l] the index is negative and Python
    counts it from the end, giving field [2 l - els], and only for
    [els > 2 l] (or a budget that is not positive) the look-up raises
    [IndexError]. *)
Theorem struct_budget_and_field_names :
  forall struct names els (dict : gmap string value) (d : list byte),
    Schema.sml_struct !! struct = Some (Schema.NStruct names) ->
    (els <= 0 \/ 2 * Z.of_nat (length names) < els ->
     Tlv.resolve struct els dict d = Raise IndexError d)
    /\ (forall name,
           0 < els <= Z.of_nat (length names) ->
           nth_error names (length names - Z.to_nat els) = Some name ->
           Py.find "[" name = -1 ->
           Tlv.resolve struct els dict d = Ok (Tlv.EStruct, name))
    /\ (forall name,
           Z.of_nat (length names) < els <= 2 * Z.of_nat (length names) ->
           nth_error names (2 * length names - Z.to_nat els) = Some name ->
           Py.find "[" name = -1 ->
           Tlv.resolve struct els dict d = Ok (Tlv.EStruct, name)).
Proof.
  intros struct names els dict d Hs. repeat split.
  - intros H. unfold Tlv.resolve.
    now rewrite Hs, (getitem_out_of_range names els H).
  - intros name Hr Hn Hf.
    apply (resolve_plain_name _ names); try assumption.
    now rewrite getitem_in_range.
  - intros name Hr Hn Hf.
    apply (resolve_plain_name _ names); try assumption.
    now rewrite getitem_wrapped.
Qed.

Lemma struct_budget_and_field_names_witness :
  Schema.sml_struct !! "valTime"%string
  = Some (Schema.NStruct ["timeId"; "[timeId]"]%string)
  /\ Z.of_nat (length ["timeId"; "[timeId]"]%string) < 4
     <= 2 * Z.of_nat (length ["timeId"; "[timeId]"]%string)
  /\ nth_error ["timeId"; "[timeId]"]%string
       (2 * length ["timeId"; "[timeId]"]%string - Z.to_nat 4)
     = Some "timeId"%string
  /\ Py.find "[" "timeId" = -1
  /\ Tlv.resolve "valTime" 4 ∅ [] = Ok (Tlv.EStruct, "timeId"%string)
  /\ Tlv.resolve "valTime" 5 ∅ [x01] = Raise IndexError [x01].
Proof.
  split; [reflexivity |]. split; [cbn; lia |].
  split; [reflexivity |]. split; [reflexivity |].
  destruct (struct_budget_and_field_names "valTime"%string
              ["timeId"; "[timeId]"]%string 4 ∅ [] eq_refl)
    as (_ & _ & H4).
  destruct (struct_budget_and_field_names "valTime"%string
              ["timeId"; "[timeId]"]%string 5 ∅ [x01] eq_refl)
    as (H5 & _ & _).
  split.
  - apply (H4 "timeId"%string); [cbn; lia | reflexivity | reflexivity].
  - apply H5. right. cbn. lia.
Defined.

(** ** The caller's [pow10] *)

(** X17: for an exponent that is not negative, [pow10(a, e)] on integers is
    [a * 10 ** e], an integer; in particular [pow10(a, 0)] is [a]. *)
Theorem pow10_nonnegative_exponent :
  forall a e : Z, 0 <= e -> Caller.pow10 a e = Some (a * 10 ^ e).
Proof.
  intros a e He. unfold Caller.pow10.
  destruct (Z.ltb_spec e 0) as [H | _]; [lia |]. f_equal.
  rewrite <- (Z2Nat.id e He) at 2.
  generalize (Z.to_nat e). intros n.
  induction n as [| n IH]; [cbn; lia |].
  rewrite Nat.iter_succ, IH, Nat2Z.inj_succ, Z.pow_succ_r by lia. lia.
Qed.

Lemma pow10_nonnegative_exponent_witness :
  0 <= 2 /\ Caller.pow10 1234 2 = Some (1234 * 10 ^ 2).
Proof.
  split; [lia |]. apply (pow10_nonnegative_exponent 1234 2). lia.
Defined.

(** ** TLV decoder: a length smaller than the type-length field *)

Section NegativeLength.

Lemma slice_to_neg (k : Z) (l : list byte) :
  0 < k -> Py.slice_to (- k) l = firstn (length l - Z.to_nat k) l.
Proof.
  intros H. unfold Py.slice_to, Py.bound.
  destruct (Z.ltb_spec (- k) 0); [| lia]. f_equal. lia.
Qed.

Lemma slice_from_neg (k : Z) (l : list byte) :
  0 < k -> Py.slice_from (- k) l = skipn (length l - Z.to_nat k) l.
Proof.
  intros H. unfold Py.slice_from, Py.bound.
  destruct (Z.ltb_spec (- k) 0); [| lia]. f_equal. lia.
Qed.

End NegativeLength.

(** X18: the length of an element counts its type-length field; when a
    boolean, integer or unsigned element announces a length smaller than the
    field itself, [data_len] is negative and [pop_data] slices from the end:
    the element takes all the bytes that are left but the last
    [tl_bytes - tl_len], and its value is read from them. *)
Theorem length_below_field_size_takes_buffer :
  forall rec struct f et elem tl tl_typ tl_len tl_bytes d1,
    Tlv.resolve struct (Tlv.elements f) (Tlv.sml_dict f) (Tlv.data f)
    = Ok (et, elem) ->
    Tlv.read_tl (Tlv.data f) = Ok (tl, tl_typ, tl_len, tl_bytes, d1) ->
    tl_len < tl_bytes ->
    (tl_typ = 0x40 ->
     Tlv.parse_item rec struct f
     = Ok (Tlv.store f et elem
             (VBool (Py.bool_from_bytes
                       (firstn (length d1 - Z.to_nat (tl_bytes - tl_len)) d1)))
             (skipn (length d1 - Z.to_nat (tl_bytes - tl_len)) d1)))
    /\ (tl_typ = 0x50 ->
        Tlv.parse_item rec struct f
        = Ok (Tlv.store f et elem
                (VInt (Py.from_bytes_signed
                         (firstn (length d1 - Z.to_nat (tl_bytes - tl_len))
                                 d1)))
                (skipn (length d1 - Z.to_nat (tl_bytes - tl_len)) d1)))
    /\ (tl_typ = 0x60 ->
        Tlv.parse_item rec struct f
        = Ok (Tlv.store f et elem
                (VInt (Py.from_bytes_unsigned
                         (firstn (length d1 - Z.to_nat (tl_bytes - tl_len))
                                 d1)))
                (skipn (length d1 - Z.to_nat (tl_bytes - tl_len)) d1))).
Proof.
  intros rec struct f et elem tl tl_typ tl_len tl_bytes d1 Hres Hrd Hlt.
  rewrite (parse_item_dispatch rec _ _ _ _ _ _ _ _ _ Hres Hrd).
  cbv zeta.
  replace (tl_len - tl_bytes) with (- (tl_bytes - tl_len)) by lia.
  rewrite slice_to_neg, slice_from_neg by lia.
  repeat split; intros ->; reflexivity.
Qed.

Lemma length_below_field_size_takes_buffer_witness :
  Tlv.resolve "smlFile" (-1) ∅ [x60; x01; x02; x03]
  = Ok (Tlv.EList, "smlMessage"%string)
  /\ Tlv.read_tl [x60; x01; x02; x03]
     = Ok (0x60, 0x60, 0, 1, [x01; x02; x03])
  /\ 0 < 1
  /\ Tlv.parse_item (fun _ _ d => Raise KeyError d) "smlFile"
       (Tlv.Frame (-1) [x60; x01; x02; x03] [] ∅ None)
     = Ok (Tlv.Frame (-2) [x03] [VInt 258] ∅ (Some Tlv.EList)).
Proof.
  split; [reflexivity |]. split; [reflexivity |]. split; [lia |].
  apply (proj2 (proj2 (length_below_field_size_takes_buffer
                  (fun _ _ d => Raise KeyError d) "smlFile"%string
                  (Tlv.Frame (-1) [x60; x01; x02; x03] [] ∅ None)
                  Tlv.EList "smlMessage"%string 0x60 0x60 0 1
                  [x01; x02; x03] eq_refl eq_refl ltac:(lia)))).
  reflexivity.
Defined.

(** ** TLV decoder: the shape of what [parse] returns *)

Section ResultShape.
Import Schema Tlv.

Lemma resolve_etype struct els dict (d : list byte) et elem :
  resolve struct els dict d = Ok (et, elem) ->
  (et = EList /\ exists name, sml_struct !! struct = Some (NList name))
  \/ (et = EStruct
      /\ exists names, sml_struct !! struct = Some (NStruct names)).
Proof.
  unfold resolve. intros Hres.
  destruct (sml_struct !! struct) as [[name | names |] |];
    try discriminate.
  - left. simplify_eq. eauto.
  - right. split; [| eauto]. repeat case_match; simplify_eq; reflexivity.
Qed.

(** An iteration of the loop binds [etyp] and either stores one value and
    takes one from the budget, or (unknown type) keeps budget, list and
    dict. *)
Lemma parse_item_step rec struct f f' :
  parse_item rec struct f = Ok f' ->
  exists et elem,
    resolve struct (elements f) (sml_dict f) (data f) = Ok (et, elem)
    /\ etyp f' = Some et
    /\ ((elements f' = elements f /\ sml_list f' = sml_list f
         /\ sml_dict f' = sml_dict f)
        \/ exists v d, f' = store f et elem v d).
Proof.
  unfold parse_item.
  destruct (resolve _ _ _ _) as [[et elem] | |]; cbn [bind];
    try discriminate.
  destruct (read_tl _) as [[[[[tl tl_typ] tl_len] tl_bytes] d1] | |];
    cbn [bind]; try discriminate.
  unfold pop_data. intros Hfin. exists et, elem. split; [reflexivity |].
  assert (Hst : forall v d, etyp (store f et elem v d) = Some et)
    by (intros v d; now destruct et).
  repeat case_match;
    try (simplify_eq; split; [apply Hst | right; eauto]).
  - destruct (rec elem tl_len d1) as [[v d2] | |];
      cbn [bind] in Hfin; simplify_eq.
    split; [apply Hst | right; eauto].
  - simplify_eq. cbn. split; [reflexivity | left; auto].
Qed.

Lemma parse_loop_list (fuel : nat) :
  forall struct name f v rest,
    sml_struct !! struct = Some (NList name) ->
    etyp f <> Some EStruct ->
    parse_loop fuel struct f = Ok (v, rest) ->
    exists l,
      v = VList l
      /\ (0 <= elements f ->
          Z.of_nat (length l)
          <= elements f + Z.of_nat (length (sml_list f))
          /\ (rest <> [] ->
              Z.of_nat (length l)
              = elements f + Z.of_nat (length (sml_list f))))
      /\ (elements f < 0 -> rest = []).
Proof.
  induction fuel as [| fuel IH]; intros struct name f v rest Hs Hty H;
    [discriminate |].
  rewrite parse_loop_S in H. destruct (parse_continue f) eqn:Hc.
  - destruct (parse_item _ struct f) as [f' | |] eqn:E;
      cbn [bind] in H; try discriminate.
    apply parse_item_step in E.
    destruct E as (et & elem & Hres & Het & Hstep).
    apply resolve_etype in Hres.
    destruct Hres as [[-> _] | [_ [names Hn]]]; [| congruence].
    unfold parse_continue in Hc. apply andb_true_iff in Hc.
    destruct Hc as [_ Hc]. apply negb_true_iff, Z.eqb_neq in Hc.
    destruct (IH struct name f' v rest Hs) as (l & Hv & Hpos & Hneg);
      [congruence | exact H |].
    exists l. split; [exact Hv |].
    destruct Hstep as [(He & Hl & _) | (x & d & ->)].
    + rewrite He, Hl in *. split; [exact Hpos | exact Hneg].
    + cbn [store elements sml_list] in *.
      rewrite length_app in *. cbn [length] in *.
      split.
      * intros H0. destruct Hpos as [H1 H2]; [lia |].
        split; [lia |]. intros Hr. specialize (H2 Hr). lia.
      * intros H0. apply Hneg. lia.
  - unfold parse_continue in Hc. unfold parse_return in H.
    destruct (etyp f) as [[|] |]; try discriminate; [| contradiction].
    simplify_eq. exists (sml_list f). split; [reflexivity |].
    apply andb_false_iff in Hc. split.
    + intros H0. split; [lia |]. intros Hr.
      destruct Hc as [Hc | Hc].
      * apply negb_false_iff, Nat.eqb_eq in Hc.
        destruct (data f); [contradiction | discriminate].
      * apply negb_false_iff, Z.eqb_eq in Hc. lia.
    + intros H0. destruct Hc as [Hc | Hc].
      * apply negb_false_iff, Nat.eqb_eq in Hc.
        destruct (data f); [reflexivity | discriminate].
      * apply negb_false_iff, Z.eqb_eq in Hc. lia.
Qed.

Lemma parse_loop_struct (fuel : nat) :
  forall struct names f v rest,
    sml_struct !! struct = Some (NStruct names) ->
    etyp f <> Some EList ->
    parse_loop fuel struct f = Ok (v, rest) ->
    exists m, v = VDict m.
Proof.
  induction fuel as [| fuel IH]; intros struct names f v rest Hs Hty H;
    [discriminate |].
  rewrite parse_loop_S in H. destruct (parse_continue f).
  - destruct (parse_item _ struct f) as [f' | |] eqn:E;
      cbn [bind] in H; try discriminate.
    apply parse_item_step in E.
    destruct E as (et & elem & Hres & Het & _).
    apply resolve_etype in Hres.
    destruct Hres as [[_ [name Hn]] | [-> _]]; [congruence |].
    apply (IH struct names f' v rest Hs); [congruence | exact H].
  - unfold parse_return in H.
    destruct (etyp f) as [[|] |]; try discriminate; [contradiction |].
    simplify_eq. eauto.
Qed.

(** Without an entry of the schema for the node, [parse] does not return. *)
Lemma parse_loop_no_entry (fuel : nat) struct d els v rest :
  (forall name, sml_struct !! struct <> Some (NList name)) ->
  (forall names, sml_struct !! struct <> Some (NStruct names)) ->
  parse_loop fuel struct (Frame els d [] ∅ None) <> Ok (v, rest).
Proof.
  intros Hl Hs. destruct fuel as [| fuel]; [discriminate |].
  rewrite parse_loop_S. destruct (parse_continue _).
  - destruct (parse_item _ struct _) as [f' | |] eqn:E; cbn [bind];
      try discriminate.
    apply parse_item_step in E. destruct E as (et & elem & Hres & _).
    apply resolve_etype in Hres.
    destruct Hres as [[_ [name Hn]] | [_ [names Hn]]];
      [now apply Hl in Hn | now apply Hs in Hn].
  - discriminate.
Qed.

End ResultShape.

(** X19: what [parse] returns follows the schema: for a node of type list
    it returns a list, for a node of type struct a dict, and for a name
    without entry it does not return.  A list decoded with a budget [n >= 0]
    has at most [n] entries, and exactly [n] when bytes are left in the
    buffer: fewer entries are returned only when the buffer ran out; with a
    negative budget the buffer is always used up. *)
Theorem parse_result_follows_schema :
  forall (struct : string) (n : Z) (d : list byte) (v : value)
         (rest : list byte),
    Tlv.parse struct n d = Ok (v, rest) ->
    (exists name l,
        Schema.sml_struct !! struct = Some (Schema.NList name)
        /\ v = VList l
        /\ (0 <= n ->
            Z.of_nat (length l) <= n
            /\ (rest <> [] -> Z.of_nat (length l) = n))
        /\ (n < 0 -> rest = []))
    \/ (exists names m,
           Schema.sml_struct !! struct = Some (Schema.NStruct names)
           /\ v = VDict m).
Proof.
  intros struct n d v rest H. unfold Tlv.parse in H.
  destruct (Schema.sml_struct !! struct) as [[name | names |] |] eqn:Hs.
  - left. apply (parse_loop_list _ struct name) in H;
      [| exact Hs | discriminate].
    destruct H as (l & Hv & Hpos & Hneg). exists name, l.
    cbn [Tlv.elements Tlv.sml_list length] in Hpos, Hneg.
    rewrite Z.add_0_r in Hpos. auto.
  - right. apply (parse_loop_struct _ struct names) in H;
      [| exact Hs | discriminate].
    destruct H as [m Hv]. eauto.
  - exfalso. revert H. apply parse_loop_no_entry; congruence.
  - exfalso. revert H. apply parse_loop_no_entry; congruence.
Qed.

Lemma parse_result_follows_schema_witness :
  Tlv.parse "valList" 2 [x01; x01; x01]
  = Ok (VList [VNone; VNone], [x01])
  /\ exists name l,
      Schema.sml_struct !! "valList"%string = Some (Schema.NList name)
      /\ VList [VNone; VNone] = VList l
      /\ (0 <= 2 ->
          Z.of_nat (length l) <= 2
          /\ ([x01] <> [] -> Z.of_nat (length l) = 2))
      /\ (2 < 0 -> [x01] = []).
Proof.
  split; [vm_compute; reflexivity |].
  destruct (parse_result_follows_schema "valList"%string 2 [x01; x01; x01]
              (VList [VNone; VNone]) [x01])
    as [H | (names & m & Hs & _)].
  - vm_compute. reflexivity.
  - exact H.
  - discriminate Hs.
Defined.

(** ** Frame assembler: a start marker inside a message *)

(** X20: a start marker received while a message is started begins the
    message anew: the bytes of the unfinished frame are dropped from the
    buffer, and the complete frame that follows is answered [True] on its
    last byte and decoded; its checksum covers that frame only. *)
Theorem unfinished_frame_is_replaced :
  forall (partial payload pad : list byte) (pp c1 c2 : byte) (v : value)
         (rest : list byte),
    Wire.escape_free 0 partial = true ->
    Z.of_nat (length pad) = Bytes.to_Z pp ->
    Wire.escape_free 0 (payload ++ pad) = true ->
    Crc.crc (Wire.checked (payload ++ pad) pp)
    = Some (Bytes.to_Z c2 * 256 + Bytes.to_Z c1) ->
    Tlv.parse "smlFile" (-1) payload = Ok (v, rest) ->
    Frame.feed Frame.init
      (Wire.start_marker ++ partial
         ++ Wire.frame (payload ++ pad) pp c1 c2)
    = Ok (repeat false 8
            ++ repeat false (length partial)
            ++ repeat false (length (Wire.frame (payload ++ pad) pp c1 c2) - 1)
            ++ [true],
          Frame.MkSml v rest false 0 false).
Proof.
  intros partial payload pad pp c1 c2 v rest Hp Hpad Hfree Hcrc Hparse.
  rewrite feed_app, (feed_start Frame.init eq_refl eq_refl). cbn [bind].
  rewrite feed_app.
  pose proof (feed_body partial (Frame.sml_file Frame.init) Wire.start_marker
                0%nat true ltac:(lia) Hp) as Hb.
  change (Z.of_nat 0) with 0 in Hb. rewrite Hb. cbn [bind].
  rewrite (feed_frame _ payload pad pp c1 c2 v rest)
    by (reflexivity || assumption).
  reflexivity.
Qed.

Lemma unfinished_frame_is_replaced_witness :
  Wire.escape_free 0 [x76; x05] = true
  /\ Z.of_nat (length [x00; x00; x00]) = Bytes.to_Z x03
  /\ Wire.escape_free 0 ([x00] ++ [x00; x00; x00]) = true
  /\ Crc.crc (Wire.checked ([x00] ++ [x00; x00; x00]) x03)
     = Some (Bytes.to_Z x18 * 256 + Bytes.to_Z xef)
  /\ Tlv.parse "smlFile" (-1) [x00] = Ok (VList [VBytes [x00]], [])
  /\ Frame.feed Frame.init
       (Wire.start_marker ++ [x76; x05]
          ++ Wire.frame ([x00] ++ [x00; x00; x00]) x03 xef x18)
     = Ok (repeat false 8 ++ repeat false 2 ++ repeat false 19 ++ [true],
           Frame.MkSml (VList [VBytes [x00]]) [] false 0 false).
Proof.
  repeat (split; [reflexivity |]).
  apply (unfinished_frame_is_replaced [x76; x05]
           [x00] [x00; x00; x00] x03 xef x18 (VList [VBytes [x00]]) []);
    reflexivity.
Defined.
